(** * keep: alert ingestion, enrichment overlays and live-feed batching

    A shallow embedding of [keep/api/routes/alerts.py]: the enrichment
    endpoints ([delete_alert], [assign_alert]), the provider poll
    orchestrator with its compressed batch publisher
    ([pull_alerts_from_providers]) and the ingestion pipeline
    ([handle_formatted_events]).

    Python values are kept as the code has them: an alert (an [AlertDto],
    or its [.dict()]) is an open mapping from attribute names to values, an
    enrichment overlay is a mapping from field names to values, Python
    integers are [Z].  Calls to collaborators that live outside the module
    (database session, pusher, providers factory, workflow manager, rules
    engine) are threaded through a state-and-exception monad that records
    every call in a trace. *)

From Stdlib Require Import ZArith Ascii String.
From stdpp Require Import gmap strings list fin_maps.

Local Open Scope string_scope.
Local Open Scope list_scope.
Local Open Scope Z_scope.

(** ** Python values *)

(** The JSON-like values stored in alert attributes and enrichment fields. *)
Inductive value :=
  | VNone
  | VBool (b : bool)
  | VNum (n : Z)
  | VStr (s : string)
  | VList (l : list string)
  | VDict (d : gmap string string).

#[global] Instance value_eq_dec : EqDecision value.
Proof. solve_decision. Defined.

#[global] Instance value_inhabited : Inhabited value := populate VNone.

(** Exceptions the module raises itself or that Python raises on its behalf;
    [Exception] stands for whatever a collaborator throws. *)
Inductive exn :=
  | HTTPException (status_code : Z) (detail : string)
  | TypeError
  | AttributeError
  | UnboundLocalError (name : string)
  | Exception (msg : string).

#[global] Instance exn_eq_dec : EqDecision exn.
Proof. solve_decision. Defined.

Inductive result (A : Type) :=
  | Returned (a : A)
  | Raised (e : exn).
Arguments Returned {A} a.
Arguments Raised {A} e.

Definition result_bind {A B} (r : result A) (k : A → result B) : result B :=
  match r with
  | Returned a => k a
  | Raised e => Raised e
  end.

(** [x in v] for a string [x]: membership for a list, key membership for a
    dict, substring test for a string, [TypeError] for the rest. *)
Definition py_in (x : string) (v : value) : result bool :=
  match v with
  | VList l => Returned (bool_decide (x ∈ l))
  | VDict d => Returned (bool_decide (is_Some (d !! x)))
  | VStr s => Returned (bool_decide (is_Some (String.index 0 x s)))
  | VNone | VBool _ | VNum _ => Raised TypeError
  end.

(** [list.remove(x)] on a Python list: drops the first occurrence. *)
Fixpoint list_remove_first (x : string) (l : list string) : list string :=
  match l with
  | [] => []
  | y :: l' => if decide (x = y) then l' else y :: list_remove_first x l'
  end.

(** [v.remove(x)], only lists have the method. *)
Definition py_remove (x : string) (v : value) : result value :=
  match v with
  | VList l => Returned (VList (list_remove_first x l))
  | _ => Raised AttributeError
  end.

(** [v.append(x)], only lists have the method. *)
Definition py_append (x : string) (v : value) : result value :=
  match v with
  | VList l => Returned (VList (l ++ [x]))
  | _ => Raised AttributeError
  end.

(** [v[k] = x] with a string key: only a dict accepts it. *)
Definition py_setitem (k x : string) (v : value) : result value :=
  match v with
  | VDict d => Returned (VDict (<[k:=x]> d))
  | _ => Raised TypeError
  end.

(** [v.pop(k, None)], a dict method in this module. *)
Definition py_pop (k : string) (v : value) : result value :=
  match v with
  | VDict d => Returned (VDict (delete k d))
  | VList _ => Raised TypeError
  | _ => Raised AttributeError
  end.

(** [isinstance(v, bool)] *)
Definition is_bool (v : value) : bool :=
  match v with VBool _ => true | _ => false end.

(** ** Alerts and enrichment overlays *)

(** [AlertDto]: attributes by name; [alert.dict()] is the mapping itself. *)
Abbreviation AlertDto := (gmap string value).

(** [alert.fingerprint] ([None] when the attribute is missing). *)
Definition fingerprint (alert : AlertDto) : value :=
  default VNone (alert !! "fingerprint").

(** [setattr(alert, name, v)] *)
Definition setattr (alert : AlertDto) (name : string) (v : value) : AlertDto :=
  <[name:=v]> alert.

(** A row of the [AlertEnrichment] table. *)
Record AlertEnrichment := {
  tenant_id : string;
  alert_fingerprint : string;
  enrichments : gmap string value;
}.

(** ** The enrichment store used by the enrichment endpoints *)

(** The overlays of all tenants, at most one per tenant and fingerprint. *)
Abbreviation enrichment_db := (gmap (string * string) (gmap string value)).

(** Modelled from the spec: [keep.api.core.db.get_enrichment] is not part of
    the sources; it is the store's [get(tenantId, fingerprint)], the overlay
    or absent. *)
Definition get_enrichment (tenant fp : string) (db : enrichment_db)
  : option (gmap string value) :=
  db !! (tenant, fp).

(** Modelled from the spec: [keep.api.core.db.enrich_alert] is not part of
    the sources; it is the store's [upsert]: the given keys replace the
    overlay's keys of the same name, the other keys are preserved, and the
    overlay is created when there is none. *)
Definition enrich_alert_db (tenant fp : string) (new : gmap string value)
    (db : enrichment_db) : enrichment_db :=
  match db !! (tenant, fp) with
  | Some old => <[(tenant, fp) := new ∪ old]> db
  | None => <[(tenant, fp) := new]> db
  end.

(** The body of a DELETE request. *)
Record DeleteRequestBody := {
  dr_fingerprint : string;
  dr_lastReceived : string;
  dr_restore : bool;
}.

Definition status_ok : gmap string string := {["status" := "ok"]}.

(** [delete_alert]: soft-delete or restore one [lastReceived] of a
    fingerprint.  Returns the response and the store after the upsert; an
    exception leaves the store as it was, the upsert being the last step. *)
Definition delete_alert (body : DeleteRequestBody) (tenant user_email : string)
    (db : enrichment_db) : result (gmap string string * enrichment_db) :=
  let enrichment := get_enrichment tenant (dr_fingerprint body) db in
  let deleted_last_received :=
    match enrichment with
    | Some e =>
        let d := default (VList []) (e !! "deleted") in
        if is_bool d then VList [] else d
    | None => VList []
    end in
  let assignees_last_receievd :=
    match enrichment with
    | Some e => default (VDict ∅) (e !! "assignees")
    | None => VDict ∅
    end in
  result_bind
    (if dr_restore body then
       result_bind (py_in (dr_lastReceived body) deleted_last_received) (λ present,
         if present then py_remove (dr_lastReceived body) deleted_last_received
         else Returned deleted_last_received)
     else py_append (dr_lastReceived body) deleted_last_received)
    (λ deleted_last_received,
  result_bind
    (result_bind (py_in (dr_lastReceived body) assignees_last_receievd) (λ present,
       if present then Returned assignees_last_receievd
       else py_setitem (dr_lastReceived body) user_email assignees_last_receievd))
    (λ assignees_last_receievd,
  Returned (status_ok,
            enrich_alert_db tenant (dr_fingerprint body)
              (<["deleted" := deleted_last_received]>
                 (<["assignees" := assignees_last_receievd]> ∅))
              db))).

(** [assign_alert]: assign one [lastReceived] of a fingerprint to the caller,
    or drop the assignment with [unassign].  The notification e-mail sent
    afterwards sits in its own [try]/[except Exception] and touches neither
    the store nor the response. *)
Definition assign_alert (fp last_received : string) (unassign : bool)
    (tenant user_email : string) (db : enrichment_db)
  : result (gmap string string * enrichment_db) :=
  let assignees_last_receievd :=
    match get_enrichment tenant fp db with
    | Some e => default (VDict ∅) (e !! "assignees")
    | None => VDict ∅
    end in
  result_bind
    (if unassign then py_pop last_received assignees_last_receievd
     else py_setitem last_received user_email assignees_last_receievd)
    (λ assignees_last_receievd,
  Returned (status_ok,
            enrich_alert_db tenant fp
              (<["assignees" := assignees_last_receievd]> ∅) db)).

(** ** Collaborators, traces and the effect monad *)

(** An installed provider as [ProvidersFactory] lists it. *)
Record Provider := {
  p_id : string;
  p_type : string;
  p_details : value;
}.

(** A row of the [Alert] table as [handle_formatted_events] builds it. *)
Record Alert := {
  a_tenant_id : string;
  a_provider_type : string;
  a_event : AlertDto;
  a_provider_id : option string;
  a_fingerprint : value;
}.

(** The pusher client handle; the routes receive [Pusher | None]. *)
Inductive Pusher := PusherClient.

(** The workflow manager singleton. *)
Inductive WorkflowManager := WorkflowManagerInstance.

(** The calls that leave the module. *)
Inductive call :=
  | GetAllProviders
  | GetInstalledProviders (tenant : string)
  | GetProvider (provider : Provider)
  | GetAlerts (provider : Provider)
  | GetEnrichmentsFromDb (tenant : string) (fingerprints : list value)
  | PusherTrigger (channel event_name : string) (data : value)
  | SessionAdd (alert : Alert)
  | SessionCommit
  | WorkflowManagerGetInstance
  | InsertEvents (tenant : string) (events : list AlertDto)
  | NewRulesEngine (tenant : string)
  | RunRules (events : list AlertDto).

(** What an observer of one run sees, in order: every call that left the
    module with the exception it raised, if any, and the log records of the
    batch publisher and of the [except] handlers ([logger.info] records of
    mere progress are left out). *)
Inductive entry :=
  | Called (c : call) (raised : option exn)
  | Logged (level msg : string) (extra : list (string * value)).

(** The collaborators: each one reads and updates a state [W] of its own
    (database, network, engines) and returns or raises.  [compress] is
    [base64.b64encode(zlib.compress(json.dumps(l).encode(), level=9)).decode()],
    a pure function of the alert list.

    Modelled from the spec: the [Alert] table model is not part of the
    sources; [session_add] stands for the Event Store's
    [create(record) -> persistedId], the id read back from [alert.id]. *)
Record Collaborators (W : Type) := {
  get_all_providers : W → result (list Provider) * W;
  get_installed_providers : string → list Provider → W → result (list Provider) * W;
  get_provider : Provider → W → result unit * W;
  get_alerts : Provider → W → result (list AlertDto) * W;
  get_enrichments_from_db : string → list value → W → result (list AlertEnrichment) * W;
  pusher_trigger : string → string → value → W → result unit * W;
  session_add : Alert → W → result string * W;
  session_commit : W → result unit * W;
  workflow_manager_get_instance : W → result unit * W;
  insert_events : string → list AlertDto → W → result unit * W;
  rules_engine : string → W → result unit * W;
  run_rules : string → list AlertDto → W → result (list AlertDto) * W;
  compress : list AlertDto → string;
}.
Arguments get_all_providers {W}.
Arguments get_installed_providers {W}.
Arguments get_provider {W}.
Arguments get_alerts {W}.
Arguments get_enrichments_from_db {W}.
Arguments pusher_trigger {W}.
Arguments session_add {W}.
Arguments session_commit {W}.
Arguments workflow_manager_get_instance {W}.
Arguments insert_events {W}.
Arguments rules_engine {W}.
Arguments run_rules {W}.
Arguments compress {W}.

(** A computation over the collaborators' state [W] and the local variables
    [L] of the running function: it returns or raises, and in both cases
    leaves the state it reached and the entries it produced. *)
Definition M (W L A : Type) : Type := W * L → result A * (W * L) * list entry.

Definition ret {W L A} (a : A) : M W L A := λ s, (Returned a, s, []).

Definition raise {W L A} (e : exn) : M W L A := λ s, (Raised e, s, []).

Definition bind {W L A B} (m : M W L A) (k : A → M W L B) : M W L B :=
  λ s, match m s with
       | (Returned a, s1, t1) =>
           match k a s1 with (r, s2, t2) => (r, s2, t1 ++ t2) end
       | (Raised e, s1, t1) => (Raised e, s1, t1)
       end.

(** [try: m  except Exception as e: h e] *)
Definition try_except {W L A} (m : M W L A) (h : exn → M W L A) : M W L A :=
  λ s, match m s with
       | (Returned a, s1, t1) => (Returned a, s1, t1)
       | (Raised e, s1, t1) =>
           match h e s1 with (r, s2, t2) => (r, s2, t1 ++ t2) end
       end.

Declare Scope effect_scope.
Delimit Scope effect_scope with eff.
Notation "x <- c1 ;; c2" := (bind c1 (λ x, c2))
  (at level 100, c1 at next level, c2 at level 200, right associativity)
  : effect_scope.
Notation "c1 ;; c2" := (bind c1 (λ _, c2))
  (at level 100, c2 at level 200, right associativity) : effect_scope.
Local Open Scope effect_scope.

(** A call to a collaborator, recorded with its outcome. *)
Definition invoke {W L A} (c : call) (f : W → result A * W) : M W L A :=
  λ s, match f s.1 with
       | (Returned a, w) => (Returned a, (w, s.2), [Called c None])
       | (Raised e, w) => (Raised e, (w, s.2), [Called c (Some e)])
       end.

Definition log {W L} (level msg : string) (extra : list (string * value))
  : M W L unit :=
  λ s, (Returned tt, s, [Logged level msg extra]).

Definition get_locals {W L} : M W L L := λ s, (Returned s.2, s, []).

Definition set_locals {W L} (l : L) : M W L unit := λ s, (Returned tt, (s.1, l), []).

(** [for x in xs: body x] *)
Fixpoint for_each {W L A} (xs : list A) (body : A → M W L unit) : M W L unit :=
  match xs with
  | [] => ret tt
  | x :: xs' => body x ;; for_each xs' body
  end.

(** [str(e)] as the log messages interpolate it. *)
Definition exn_str (e : exn) : string :=
  match e with
  | HTTPException _ detail => detail
  | TypeError => "TypeError"
  | AttributeError => "AttributeError"
  | UnboundLocalError name => name
  | Exception msg => msg
  end.

(** [len(s)] of a Python string. *)
Definition len (s : string) : Z := Z.of_nat (String.length s).

(** [None]-or-string as a value. *)
Definition opt_str (o : option string) : value :=
  match o with Some s => VStr s | None => VNone end.

Section Routes.
Context {W : Type} (env : Collaborators W).

(** [pusher_client.trigger(channel, event_name, data)]; on a disabled
    pusher ([None]) the attribute lookup raises before anything is sent. *)
Definition trigger {L} (pusher_client : option Pusher)
    (channel event_name : string) (data : value) : M W L unit :=
  match pusher_client with
  | Some _ =>
      invoke (PusherTrigger channel event_name data)
             (pusher_trigger env channel event_name data)
  | None => raise AttributeError
  end.

(** ** The compressed batch publisher *)

(** [__send_compressed_alerts]; the log record keeps the batch size in its
    [extra], the message is given without the interpolated count. *)
Definition send_compressed_alerts {L} (compressed_alerts_data : string)
    (number_of_alerts_in_batch : Z) (tenant : string)
    (pusher_client : option Pusher) : M W L unit :=
  log "info" "Sending batch of pulled alerts via pusher"
      [("number_of_alerts", VNum number_of_alerts_in_batch)] ;;
  trigger pusher_client ("private-" +:+ tenant) "async-alerts"
          (VStr compressed_alerts_data).

(** The variables of the batching loop. *)
Record batch := {
  batch_send : list AlertDto;
  previous_compressed_batch : string;
  new_compressed_batch : string;
  number_of_alerts_in_batch : Z;
}.

Definition batch_init : batch :=
  {| batch_send := [];
     previous_compressed_batch := "";
     new_compressed_batch := "";
     number_of_alerts_in_batch := 0 |}.

(** One round of [for alert in alerts] in the batching loop. *)
Definition batch_step {L} (tenant : string) (pusher_client : option Pusher)
    (b : batch) (alert : AlertDto) : M W L batch :=
  let alert_dict := alert in
  let batch_send' := batch_send b ++ [alert_dict] in
  let new := compress env batch_send' in
  if len new <=? 10240 then
    ret {| batch_send := batch_send';
           previous_compressed_batch := new;
           new_compressed_batch := new;
           number_of_alerts_in_batch := number_of_alerts_in_batch b + 1 |}
  else
    send_compressed_alerts (previous_compressed_batch b)
      (number_of_alerts_in_batch b) tenant pusher_client ;;
    ret {| batch_send := [alert_dict];
           previous_compressed_batch := previous_compressed_batch b;
           new_compressed_batch := "";
           number_of_alerts_in_batch := 1 |}.

Fixpoint batch_loop {L} (tenant : string) (pusher_client : option Pusher)
    (b : batch) (alerts : list AlertDto) : M W L batch :=
  match alerts with
  | [] => ret b
  | alert :: alerts' =>
      b' <- batch_step tenant pusher_client b alert ;;
      batch_loop tenant pusher_client b' alerts'
  end.

(** The batching loop of [pull_alerts_from_providers] together with the
    flush that follows it. *)
Definition batch_send_alerts {L} (tenant : string)
    (pusher_client : option Pusher) (alerts : list AlertDto) : M W L unit :=
  b <- batch_loop tenant pusher_client batch_init alerts ;;
  if negb (String.eqb (new_compressed_batch b) "")
     && (len (new_compressed_batch b) <? 10240)
  then send_compressed_alerts (new_compressed_batch b)
         (number_of_alerts_in_batch b) tenant pusher_client
  else ret tt.

(** ** The provider poll orchestrator *)

(** [for enrichment in e.enrichments: setattr(alert, enrichment, ...)] when
    the overlay's fingerprint is the alert's. *)
Definition enrich_pulled_alert (e : AlertEnrichment) (alert : AlertDto)
  : AlertDto :=
  if decide (VStr (alert_fingerprint e) = fingerprint alert)
  then map_fold (λ name v a, setattr a name v) alert (enrichments e)
  else alert.

(** The enrichment loops over the pulled alerts, overlays outermost; the
    alerts are updated in place. *)
Definition enrich_pulled_alerts (pulled_alerts_enrichments : list AlertEnrichment)
    (alerts : list AlertDto) : list AlertDto :=
  foldl (λ alerts e, enrich_pulled_alert e <$> alerts)
        alerts pulled_alerts_enrichments.

Definition provider_extra (provider : Provider) (tenant : string)
  : list (string * value) :=
  [("provider_id", VStr (p_id provider));
   ("provider_type", VStr (p_type provider));
   ("tenant_id", VStr tenant)].

(** The [try] block of one provider; returns [sync_alerts] as the block
    leaves it.  [list(set(...))] keeps one copy of each fingerprint, in an
    order Python does not fix. *)
Definition pull_provider (tenant : string) (pusher_client : option Pusher)
    (sync : bool) (provider : Provider) (sync_alerts : list AlertDto)
  : M W unit (list AlertDto) :=
  alerts <- invoke (GetAlerts provider) (get_alerts env provider) ;;
  match alerts with
  | [] => ret sync_alerts
  | _ :: _ =>
      let pulled_alerts_fingerprints := remove_dups (fingerprint <$> alerts) in
      pulled_alerts_enrichments <-
        invoke (GetEnrichmentsFromDb tenant pulled_alerts_fingerprints)
               (get_enrichments_from_db env tenant pulled_alerts_fingerprints) ;;
      let alerts := enrich_pulled_alerts pulled_alerts_enrichments alerts in
      if sync then ret (sync_alerts ++ alerts)
      else
        batch_send_alerts tenant pusher_client alerts ;;
        ret sync_alerts
  end.

(** [for provider in installed_providers]: the provider is instantiated
    before the [try], pulled inside it. *)
Fixpoint pull_providers (tenant : string) (pusher_client : option Pusher)
    (sync : bool) (installed_providers : list Provider)
    (sync_alerts : list AlertDto) : M W unit (list AlertDto) :=
  match installed_providers with
  | [] => ret sync_alerts
  | provider :: rest =>
      invoke (GetProvider provider) (get_provider env provider) ;;
      sync_alerts' <-
        try_except
          (pull_provider tenant pusher_client sync provider sync_alerts)
          (λ e,
             log "warning"
                 ("Could not fetch alerts from provider due to " +:+ exn_str e)
                 (provider_extra provider tenant) ;;
             ret sync_alerts) ;;
      pull_providers tenant pusher_client sync rest sync_alerts'
  end.

(** [pull_alerts_from_providers]; [None] is Python's [None] of the
    asynchronous mode.  The [ContextManager] built before the loop is a
    plain object and is left out. *)
Definition pull_alerts_from_providers (tenant : string)
    (pusher_client : option Pusher) (sync : bool)
  : M W unit (option (list AlertDto)) :=
  if bool_decide (pusher_client = None) && negb sync then
    raise (HTTPException 500 "Cannot pull alerts async when pusher is disabled.")
  else
    all_providers <- invoke GetAllProviders (get_all_providers env) ;;
    installed_providers <-
      invoke (GetInstalledProviders tenant)
             (get_installed_providers env tenant all_providers) ;;
    sync_alerts <- pull_providers tenant pusher_client sync installed_providers [] ;;
    (if negb sync
     then trigger pusher_client ("private-" +:+ tenant) "async-done" (VDict ∅)
     else ret tt) ;;
    if sync then ret (Some sync_alerts) else ret None.

(** ** The ingestion pipeline *)

(** The local variables of [handle_formatted_events] that outlive the [try]
    block assigning them: the alert objects of the caller's list, updated in
    place, and [workflow_manager], unbound until Stage B binds it. *)
Record locals := {
  formatted_events : list AlertDto;
  workflow_manager : option WorkflowManager;
}.

(** An attribute assignment on the alert object at position [i]. *)
Definition set_event (i : nat) (formatted_event : AlertDto) : M W locals unit :=
  l <- get_locals ;;
  set_locals {| formatted_events := <[i:=formatted_event]> (formatted_events l);
                workflow_manager := workflow_manager l |}.

Definition events_extra (tenant provider_type : string)
    (provider_id : option string) (n : nat) : list (string * value) :=
  [("provider_type", VStr provider_type);
   ("num_of_alerts", VNum (Z.of_nat n));
   ("provider_id", opt_str provider_id);
   ("tenant_id", VStr tenant)].

(** The overlay fields written over a copy of the event,
    [alert_event_copy[enrichment] = alert_enrichment.enrichments[enrichment]]. *)
Definition merge_enrichments (alert_event_copy : AlertDto)
    (alert_enrichments : list AlertEnrichment) : AlertDto :=
  foldl (λ copy e, map_fold (λ name v c, <[name:=v]> c) copy (enrichments e))
        alert_event_copy alert_enrichments.

(** The single-alert message of the live feed. *)
Definition push_alert {L} (tenant : string) (pusher_client : option Pusher)
    (alert : AlertDto) : M W L unit :=
  try_except
    (trigger pusher_client ("private-" +:+ tenant) "async-alerts"
             (VStr (compress env [alert])))
    (λ _, log "error" "Failed to push alert to the client" []).

(** One round of Stage A for the alert at position [i] of the list.
    [formatted_event.dict()] and the [.dict()] of the [AlertDto] rebuilt from
    [alert_event_copy] are the mappings themselves. *)
Definition persist_event (tenant provider_type : string)
    (provider_id : option string) (pusher_client : option Pusher)
    (i : nat) (formatted_event : AlertDto) : M W locals unit :=
  let formatted_event := setattr formatted_event "pushed" (VBool true) in
  set_event i formatted_event ;;
  let alert := {| a_tenant_id := tenant;
                  a_provider_type := provider_type;
                  a_event := formatted_event;
                  a_provider_id := provider_id;
                  a_fingerprint := fingerprint formatted_event |} in
  alert_id <- invoke (SessionAdd alert) (session_add env alert) ;;
  let formatted_event := setattr formatted_event "event_id" (VStr alert_id) in
  set_event i formatted_event ;;
  let alert_event_copy := a_event alert in
  alert_enrichments <-
    invoke (GetEnrichmentsFromDb tenant [fingerprint formatted_event])
           (get_enrichments_from_db env tenant [fingerprint formatted_event]) ;;
  let alert_event_copy := merge_enrichments alert_event_copy alert_enrichments in
  push_alert tenant pusher_client alert_event_copy.

Fixpoint persist_events (tenant provider_type : string)
    (provider_id : option string) (pusher_client : option Pusher)
    (i : nat) (todo : list AlertDto) : M W locals unit :=
  match todo with
  | [] => ret tt
  | formatted_event :: todo' =>
      persist_event tenant provider_type provider_id pusher_client
                    i formatted_event ;;
      persist_events tenant provider_type provider_id pusher_client (S i) todo'
  end.

(** Stage A: persist and publish every alert, then commit. *)
Definition stage_a (tenant provider_type : string)
    (provider_id : option string) (pusher_client : option Pusher)
  : M W locals unit :=
  try_except
    (l <- get_locals ;;
     persist_events tenant provider_type provider_id pusher_client
                    0 (formatted_events l) ;;
     invoke SessionCommit (session_commit env))
    (λ _,
       l <- get_locals ;;
       log "error" "Failed to push alerts to the DB"
           (events_extra tenant provider_type provider_id
                         (length (formatted_events l)))).

(** Stage B: the workflow manager receives the caller's list. *)
Definition stage_b (tenant provider_type : string)
    (provider_id : option string) : M W locals unit :=
  try_except
    (invoke WorkflowManagerGetInstance (workflow_manager_get_instance env) ;;
     l <- get_locals ;;
     set_locals {| formatted_events := formatted_events l;
                   workflow_manager := Some WorkflowManagerInstance |} ;;
     invoke (InsertEvents tenant (formatted_events l))
            (insert_events env tenant (formatted_events l)))
    (λ _,
       l <- get_locals ;;
       log "error" "Failed to run workflows based on alerts"
           (events_extra tenant provider_type provider_id
                         (length (formatted_events l)))).

(** Stage C: the rules engine, and the grouped alerts it creates. *)
Definition stage_c (tenant provider_type : string)
    (provider_id : option string) (pusher_client : option Pusher)
  : M W locals unit :=
  try_except
    (invoke (NewRulesEngine tenant) (rules_engine env tenant) ;;
     l <- get_locals ;;
     grouped_alerts <-
       invoke (RunRules (formatted_events l))
              (run_rules env tenant (formatted_events l)) ;;
     match grouped_alerts with
     | [] => ret tt
     | _ :: _ =>
         match workflow_manager l with
         | Some _ =>
             invoke (InsertEvents tenant grouped_alerts)
                    (insert_events env tenant grouped_alerts)
         | None => raise (UnboundLocalError "workflow_manager")
         end ;;
         for_each grouped_alerts (push_alert tenant pusher_client)
     end)
    (λ _,
       l <- get_locals ;;
       log "error" "Failed to run rules engine"
           (events_extra tenant provider_type provider_id
                         (length (formatted_events l)))).

(** [handle_formatted_events]; the [session] is part of the collaborators'
    state, the caller's [formatted_events] are the initial locals. *)
Definition handle_formatted_events (tenant provider_type : string)
    (pusher_client : option Pusher) (provider_id : option string)
  : M W locals unit :=
  stage_a tenant provider_type provider_id pusher_client ;;
  stage_b tenant provider_type provider_id ;;
  stage_c tenant provider_type provider_id pusher_client.

(** A call of [handle_formatted_events] on the list [events]: the result,
    the collaborators' state, the alert objects as the call leaves them and
    the trace. *)
Definition ingest (tenant provider_type : string)
    (pusher_client : option Pusher) (provider_id : option string)
    (events : list AlertDto) (w : W)
  : result unit * W * list AlertDto * list entry :=
  match handle_formatted_events tenant provider_type pusher_client provider_id
          (w, {| formatted_events := events; workflow_manager := None |}) with
  | (r, (w', l), t) => (r, w', formatted_events l, t)
  end.

End Routes.

(** ** Views of a stored overlay *)

(** The [deleted] sequence of an overlay as [delete_alert] reads it: empty
    when the overlay or the key is missing, or holds the legacy boolean. *)
Definition deleted_of (o : option (gmap string value)) : list string :=
  match o with
  | Some e => match e !! "deleted" with Some (VList l) => l | _ => [] end
  | None => []
  end.

(** The [assignees] mapping of an overlay, empty when missing. *)
Definition assignees_of (o : option (gmap string value)) : gmap string string :=
  match o with
  | Some e => match e !! "assignees" with Some (VDict d) => d | _ => ∅ end
  | None => ∅
  end.

(** The reserved keys hold values of their documented types: [deleted] a
    sequence (or the legacy boolean), [assignees] a mapping. *)
Definition overlay_ok (o : option (gmap string value)) : Prop :=
  match o with
  | Some e =>
      match e !! "deleted" with
      | None | Some (VBool _) | Some (VList _) => True
      | _ => False
      end ∧
      match e !! "assignees" with
      | None | Some (VDict _) => True
      | _ => False
      end
  | None => True
  end.

(** Number of occurrences of [x] in a sequence. *)
Definition occurrences (x : string) (l : list string) : nat :=
  length (filter (λ y, y = x) l).

(** One soft-delete call per user of [users], all for the same
    [lastReceived] of the same fingerprint. *)
Fixpoint delete_repeatedly (fp last_received tenant : string)
    (users : list string) (db : enrichment_db) : result enrichment_db :=
  match users with
  | [] => Returned db
  | user_email :: users' =>
      result_bind
        (delete_alert {| dr_fingerprint := fp;
                         dr_lastReceived := last_received;
                         dr_restore := false |} tenant user_email db)
        (λ r, delete_repeatedly fp last_received tenant users' r.2)
  end.

(** ** Scenarios *)

Definition ts1 : string := "2024-01-01T00:00:00Z".

Definition ts2 : string := "2024-01-02T00:00:00Z".

(** The store after one soft-delete of [ts1] of fingerprint [fp1] by
    alice. *)
Definition store_deleted_once : enrichment_db :=
  {[ ("T1", "fp1") :=
       <["deleted" := VList [ts1]]>
         (<["assignees" := VDict {[ ts1 := "alice" ]}]> ∅) ]}.


(** ** Reading a trace *)

(** The pusher messages of a trace, in order: channel, event name, data. *)
Fixpoint triggered (t : list entry) : list (string * string * value) :=
  match t with
  | [] => []
  | Called (PusherTrigger channel event_name data) _ :: t' =>
      (channel, event_name, data) :: triggered t'
  | _ :: t' => triggered t'
  end.

(** The outcome of a call that raised [raised], or returned. *)
Definition outcome (raised : option exn) : result unit :=
  match raised with
  | None => Returned tt
  | Some e => Raised e
  end.

(** Every message of the batch publisher is within the ceiling (the empty
    payload of a premature flush included). *)
Definition within_ceiling (m : string * string * value) : Prop :=
  ∃ p, m.2 = VStr p ∧ len p ≤ 10240.

(** ** Scripted collaborators for the scenarios *)

(** A stand-in for the compressor: the payload has one character of framing
    and, for each alert, as many characters as its [weight] attribute says,
    the way incompressible alert bodies add up. *)
Definition weight (alert : AlertDto) : nat :=
  match alert !! "weight" with
  | Some (VNum n) => Z.to_nat n
  | _ => 0%nat
  end.

Fixpoint padding (n : nat) : string :=
  match n with
  | O => ""
  | S n' => String "A"%char (padding n')
  end.

Definition weigh_compress (l : list AlertDto) : string :=
  padding (S (sum_list (weight <$> l))).

(** What the collaborators of a scenario answer; they keep no state. *)
Record script := {
  installed : list Provider;
  pulls : Provider → result (list AlertDto);
  overlays : list AlertEnrichment;
  adds : Alert → result string;
  triggers : string → result unit;
  workflows : list AlertDto → result unit;
  rules : list AlertDto → result (list AlertDto);
}.

Definition scripted (sc : script) : Collaborators unit :=
  {| get_all_providers := λ w, (Returned (installed sc), w);
     get_installed_providers := λ _ all w, (Returned all, w);
     get_provider := λ _ w, (Returned tt, w);
     get_alerts := λ provider w, (pulls sc provider, w);
     get_enrichments_from_db := λ tenant fps w,
       (Returned (filter (λ e, tenant_id e = tenant
                               ∧ VStr (alert_fingerprint e) ∈ fps)
                         (overlays sc)), w);
     pusher_trigger := λ _ event_name _ w, (triggers sc event_name, w);
     session_add := λ alert w, (adds sc alert, w);
     session_commit := λ w, (Returned tt, w);
     workflow_manager_get_instance := λ w, (Returned tt, w);
     insert_events := λ _ events w, (workflows sc events, w);
     rules_engine := λ _ w, (Returned tt, w);
     run_rules := λ _ events w, (rules sc events, w);
     compress := weigh_compress |}.

(** Nothing installed, nothing stored, every call succeeds. *)
Definition quiet : script :=
  {| installed := [];
     pulls := λ _, Returned [];
     overlays := [];
     adds := λ _, Returned "id-1";
     triggers := λ _, Returned tt;
     workflows := λ _, Returned tt;
     rules := λ _, Returned [] |}.

(** Alerts of 6000 characters each: one fits the ceiling, two do not. *)
Definition alert_a : AlertDto :=
  <["fingerprint" := VStr "fp-a"]> (<["weight" := VNum 6000]> ∅).

Definition alert_b : AlertDto :=
  <["fingerprint" := VStr "fp-b"]> (<["weight" := VNum 6000]> ∅).

Definition alert_c : AlertDto :=
  <["fingerprint" := VStr "fp-c"]> (<["weight" := VNum 6000]> ∅).

(** An alert whose own payload is over the ceiling. *)
Definition alert_oversized : AlertDto :=
  <["fingerprint" := VStr "fp-big"]> (<["weight" := VNum 11000]> ∅).

(** An alert whose payload has exactly 10240 characters. *)
Definition alert_brimful : AlertDto :=
  <["fingerprint" := VStr "fp-full"]> (<["weight" := VNum 10239]> ∅).

(** ** The traces of the ingestion pipeline *)

Section IngestionTraces.
Context {W : Type} (env : Collaborators W).
Context (tenant provider_type : string) (provider_id : option string).
Context (pusher_client : option Pusher).

(** The alert object once Stage A has marked it as delivered. *)
Definition pushed (formatted_event : AlertDto) : AlertDto :=
  setattr formatted_event "pushed" (VBool true).

(** The alert object once Stage A has stored it under [alert_id]. *)
Definition persisted (formatted_event : AlertDto) (alert_id : string) : AlertDto :=
  setattr (pushed formatted_event) "event_id" (VStr alert_id).

(** The row Stage A stores for an alert. *)
Definition alert_row (formatted_event : AlertDto) : Alert :=
  {| a_tenant_id := tenant;
     a_provider_type := provider_type;
     a_event := pushed formatted_event;
     a_provider_id := provider_id;
     a_fingerprint := fingerprint (pushed formatted_event) |}.

Definition push_failed : entry :=
  Logged "error" "Failed to push alert to the client" [].

(** The entries of one single-alert message: the pusher call and, when it
    raised, the log record of the handler. *)
Definition push_entries (alert : AlertDto) (raised : option exn) : list entry :=
  Called (PusherTrigger ("private-" +:+ tenant) "async-alerts"
                        (VStr (compress env [alert]))) raised
  :: match raised with Some _ => [push_failed] | None => [] end.

(** A trace of [push_alert]; without pusher client nothing is sent. *)
Definition push_trace (alert : AlertDto) (t : list entry) : Prop :=
  match pusher_client with
  | Some _ => ∃ raised, t = push_entries alert raised
  | None => t = [push_failed]
  end.

(** A trace of one round of Stage A for [formatted_event], the alert object
    as the round leaves it, and whether the loop goes on. *)
Inductive stage_a_block (formatted_event : AlertDto)
  : list entry → AlertDto → bool → Prop :=
  | block_add_raised e :
      stage_a_block formatted_event
        [Called (SessionAdd (alert_row formatted_event)) (Some e)]
        (pushed formatted_event) false
  | block_enrichments_raised alert_id e :
      stage_a_block formatted_event
        [Called (SessionAdd (alert_row formatted_event)) None;
         Called (GetEnrichmentsFromDb tenant
                   [fingerprint (persisted formatted_event alert_id)]) (Some e)]
        (persisted formatted_event alert_id) false
  | block_published alert_id alert_enrichments t :
      push_trace (merge_enrichments (pushed formatted_event) alert_enrichments) t →
      stage_a_block formatted_event
        (Called (SessionAdd (alert_row formatted_event)) None
         :: Called (GetEnrichmentsFromDb tenant
                      [fingerprint (persisted formatted_event alert_id)]) None
         :: t)
        (persisted formatted_event alert_id) true.

(** A trace of the loop of Stage A over the alerts [todo], the alert
    objects afterwards, and whether the loop reached its end. *)
Inductive stage_a_loop : list AlertDto → list entry → list AlertDto → bool → Prop :=
  | loop_end : stage_a_loop [] [] [] true
  | loop_abort formatted_event todo t formatted_event' :
      stage_a_block formatted_event t formatted_event' false →
      stage_a_loop (formatted_event :: todo) t (formatted_event' :: todo) false
  | loop_next formatted_event todo t formatted_event' t' todo' completed :
      stage_a_block formatted_event t formatted_event' true →
      stage_a_loop todo t' todo' completed →
      stage_a_loop (formatted_event :: todo) (t ++ t')
                   (formatted_event' :: todo') completed.

Definition stage_a_failed (n : nat) : entry :=
  Logged "error" "Failed to push alerts to the DB"
         (events_extra tenant provider_type provider_id n).

Definition stage_b_failed (n : nat) : entry :=
  Logged "error" "Failed to run workflows based on alerts"
         (events_extra tenant provider_type provider_id n).

Definition stage_c_failed (n : nat) : entry :=
  Logged "error" "Failed to run rules engine"
         (events_extra tenant provider_type provider_id n).

(** A trace of Stage A on the alerts [events], and the alert objects it
    leaves: the loop, then the commit, or the handler's log record when the
    loop or the commit raised. *)
Definition stage_a_trace (events : list AlertDto) (t : list entry)
    (events' : list AlertDto) : Prop :=
  ∃ t_loop completed,
    stage_a_loop events t_loop events' completed
    ∧ if completed
      then t = t_loop ++ [Called SessionCommit None]
           ∨ ∃ e, t = t_loop ++ [Called SessionCommit (Some e);
                                 stage_a_failed (length events)]
      else t = t_loop ++ [stage_a_failed (length events)].

(** A trace of Stage B on the alert objects [events], and the binding of
    [workflow_manager] it leaves. *)
Inductive stage_b_trace (events : list AlertDto)
  : list entry → option WorkflowManager → Prop :=
  | workflow_manager_raised e :
      stage_b_trace events
        [Called WorkflowManagerGetInstance (Some e);
         stage_b_failed (length events)]
        None
  | workflow_inserted :
      stage_b_trace events
        [Called WorkflowManagerGetInstance None;
         Called (InsertEvents tenant events) None]
        (Some WorkflowManagerInstance)
  | workflow_insert_raised e :
      stage_b_trace events
        [Called WorkflowManagerGetInstance None;
         Called (InsertEvents tenant events) (Some e);
         stage_b_failed (length events)]
        (Some WorkflowManagerInstance).

(** The traces of the single-alert messages of the grouped alerts. *)
Inductive pushes_trace : list AlertDto → list entry → Prop :=
  | pushes_end : pushes_trace [] []
  | pushes_next grouped_alert grouped_alerts t t' :
      push_trace grouped_alert t →
      pushes_trace grouped_alerts t' →
      pushes_trace (grouped_alert :: grouped_alerts) (t ++ t').

(** A trace of Stage C on the alert objects [events], given the binding of
    [workflow_manager] that Stage B left. *)
Inductive stage_c_trace (events : list AlertDto)
    (manager : option WorkflowManager) : list entry → Prop :=
  | rules_engine_raised e :
      stage_c_trace events manager
        [Called (NewRulesEngine tenant) (Some e);
         stage_c_failed (length events)]
  | run_rules_raised e :
      stage_c_trace events manager
        [Called (NewRulesEngine tenant) None;
         Called (RunRules events) (Some e);
         stage_c_failed (length events)]
  | no_grouped_alerts :
      stage_c_trace events manager
        [Called (NewRulesEngine tenant) None;
         Called (RunRules events) None]
  | grouped_without_manager :
      manager = None →
      stage_c_trace events manager
        [Called (NewRulesEngine tenant) None;
         Called (RunRules events) None;
         stage_c_failed (length events)]
  | grouped_insert_raised grouped_alerts e :
      is_Some manager →
      grouped_alerts ≠ [] →
      stage_c_trace events manager
        [Called (NewRulesEngine tenant) None;
         Called (RunRules events) None;
         Called (InsertEvents tenant grouped_alerts) (Some e);
         stage_c_failed (length events)]
  | grouped_pushed grouped_alerts t :
      is_Some manager →
      grouped_alerts ≠ [] →
      pushes_trace grouped_alerts t →
      stage_c_trace events manager
        (Called (NewRulesEngine tenant) None
         :: Called (RunRules events) None
         :: Called (InsertEvents tenant grouped_alerts) None
         :: t).

End IngestionTraces.

(** The rows handed to [session.add], in order. *)
Fixpoint session_added (t : list entry) : list Alert :=
  match t with
  | [] => []
  | Called (SessionAdd alert) _ :: t' => alert :: session_added t'
  | _ :: t' => session_added t'
  end.

(** An entry of the workflow manager or of the rules engine. *)
Definition is_dispatch (e : entry) : bool :=
  match e with
  | Called WorkflowManagerGetInstance _
  | Called (InsertEvents _ _) _
  | Called (NewRulesEngine _) _
  | Called (RunRules _) _ => true
  | _ => false
  end.

(** An entry of the rules engine. *)
Definition is_rules (e : entry) : bool :=
  match e with
  | Called (NewRulesEngine _) _
  | Called (RunRules _) _ => true
  | _ => false
  end.

(** Two alert objects that differ at most in the attributes Stage A sets. *)
Definition same_alert (a a' : AlertDto) : Prop :=
  ∀ name, name ≠ "pushed" → name ≠ "event_id" → a' !! name = a !! name.

(** The alert lists handed to [insert_events], in order. *)
Fixpoint inserted_events (t : list entry) : list (list AlertDto) :=
  match t with
  | [] => []
  | Called (InsertEvents _ events) _ :: t' => events :: inserted_events t'
  | _ :: t' => inserted_events t'
  end.

(** The alert lists handed to [run_rules], in order. *)
Fixpoint ruled_events (t : list entry) : list (list AlertDto) :=
  match t with
  | [] => []
  | Called (RunRules events) _ :: t' => events :: ruled_events t'
  | _ :: t' => ruled_events t'
  end.

(** A call to the stores of Stage A: the event store's write and the
    enrichment store's read. *)
Definition is_store_call (c : call) : bool :=
  match c with
  | SessionAdd _ | GetEnrichmentsFromDb _ _ => true
  | _ => false
  end.

(** The fields of the overlays of one alert taken together, a later overlay
    winning over an earlier one. *)
Definition overlay_fields (alert_enrichments : list AlertEnrichment)
  : gmap string value :=
  foldl (λ fields e, enrichments e ∪ fields) ∅ alert_enrichments.

(** The overlay [e] is for the fingerprint of [alert]. *)
Definition overlay_of (alert : AlertDto) (e : AlertEnrichment) : Prop :=
  VStr (alert_fingerprint e) = fingerprint alert.

#[global] Instance overlay_of_dec alert e : Decision (overlay_of alert e).
Proof. unfold overlay_of. apply _. Defined.

(** The single-alert message of the live feed for [view]. *)
Definition alert_message {W} (env : Collaborators W) (tenant : string)
    (view : AlertDto) : string * string * value :=
  ("private-" +:+ tenant, "async-alerts", VStr (compress env [view])).

(** The event store raises for the alert with fingerprint [fp-a]. *)
Definition failing_store : script :=
  {| installed := [];
     pulls := λ _, Returned [];
     overlays := [];
     adds := λ alert, if decide (a_fingerprint alert = VStr "fp-a")
                      then Raised (Exception "db down")
                      else Returned "id-1";
     triggers := λ _, Returned tt;
     workflows := λ _, Returned tt;
     rules := λ _, Returned [] |}.

(** An alert whose raw event sets [x = 2], and an overlay of its
    fingerprint that sets [x = 1]. *)
Definition alert_x : AlertDto :=
  <["fingerprint" := VStr "F"]> (<["x" := VNum 2]> (<["weight" := VNum 10]> ∅)).

Definition overlay_x : AlertEnrichment :=
  {| tenant_id := "T1";
     alert_fingerprint := "F";
     enrichments := {[ "x" := VNum 1 ]} |}.

Definition provider_x : Provider :=
  {| p_id := "px"; p_type := "grafana"; p_details := VNone |}.

Definition with_overlay : script :=
  {| installed := [provider_x];
     pulls := λ _, Returned [alert_x];
     overlays := [overlay_x];
     adds := λ _, Returned "id-1";
     triggers := λ _, Returned tt;
     workflows := λ _, Returned tt;
     rules := λ _, Returned [] |}.

(** ** The traces of the poll orchestrator *)

(** The providers whose pull was invoked, in order. *)
Fixpoint pulled (t : list entry) : list Provider :=
  match t with
  | [] => []
  | Called (GetAlerts provider) _ :: t' => provider :: pulled t'
  | _ :: t' => pulled t'
  end.

(** The calls of [pull_alerts_from_providers] that sit outside every [try]:
    listing and instantiating the providers, and the closing [async-done]
    message. *)
Definition is_unguarded (c : call) : bool :=
  match c with
  | GetAllProviders | GetInstalledProviders _ | GetProvider _ => true
  | PusherTrigger _ event_name _ => String.eqb event_name "async-done"
  | _ => false
  end.

(** The configuration error of the asynchronous mode without pusher. *)
Definition pusher_disabled : exn :=
  HTTPException 500 "Cannot pull alerts async when pusher is disabled.".

(** Two installed providers: the pull of the first raises, the pull of the
    second returns two alerts. *)
Definition provider_A : Provider :=
  {| p_id := "A"; p_type := "grafana"; p_details := VNone |}.

Definition provider_B : Provider :=
  {| p_id := "B"; p_type := "datadog"; p_details := VNone |}.

Definition one_provider_down : script :=
  {| installed := [provider_A; provider_B];
     pulls := λ provider, if decide (p_id provider = "A")
                          then Raised (Exception "timeout")
                          else Returned [alert_a; alert_b];
     overlays := [];
     adds := λ _, Returned "id-1";
     triggers := λ _, Returned tt;
     workflows := λ _, Returned tt;
     rules := λ _, Returned [] |}.

(** The pusher raises on the closing [async-done] message. *)
Definition pusher_down_at_done : script :=
  {| installed := [];
     pulls := λ _, Returned [];
     overlays := [];
     adds := λ _, Returned "id-1";
     triggers := λ event_name, if String.eqb event_name "async-done"
                               then Raised (Exception "pusher unreachable")
                               else Returned tt;
     workflows := λ _, Returned tt;
     rules := λ _, Returned [] |}.

(** ** Further views of the batch publisher *)

(** Whether the flush after the loop still has a candidate payload to look
    at: [new_compressed_batch] is not the empty string. *)
Definition pending_flush (b : batch) : nat :=
  if String.eqb (new_compressed_batch b) "" then 0%nat else 1%nat.

(** An entry that is not a call that raised. *)
Definition no_failure (x : entry) : Prop :=
  match x with
  | Called _ (Some _) => False
  | _ => True
  end.

(** [payload] encodes a run of consecutive alerts of [alerts]. *)
Definition encodes_segment {W} (env : Collaborators W) (alerts : list AlertDto)
    (payload : string) : Prop :=
  ∃ before segment after,
    alerts = before ++ segment ++ after
    ∧ segment ≠ []
    ∧ payload = compress env segment.

(** What the batching loop keeps about the input [full] while [rest] is
    still to be read: the batch is a run of [full] that ends where [rest]
    begins, the previous payload is empty or encodes a run, and the candidate
    payload is empty or encodes the batch. *)
Definition batch_inv {W} (env : Collaborators W) (full rest : list AlertDto)
    (b : batch) : Prop :=
  (∃ before, full = before ++ batch_send b ++ rest)
  ∧ (previous_compressed_batch b = ""
     ∨ encodes_segment env full (previous_compressed_batch b))
  ∧ (new_compressed_batch b = ""
     ∨ (batch_send b ≠ []
        ∧ new_compressed_batch b = compress env (batch_send b))).

(** A message with the empty payload, or with the encoding of a run of
    [full]. *)
Definition segment_message {W} (env : Collaborators W) (full : list AlertDto)
    (m : string * string * value) : Prop :=
  m.2 = VStr ""
  ∨ ∃ payload, m.2 = VStr payload ∧ encodes_segment env full payload.

(** A pusher that refuses every message. *)
Definition pusher_down : script :=
  {| installed := [];
     pulls := λ _, Returned [];
     overlays := [];
     adds := λ _, Returned "id-1";
     triggers := λ _, Raised (Exception "pusher is down");
     workflows := λ _, Returned tt;
     rules := λ _, Returned [] |}.

(** ** Further views of the poll orchestrator *)

(** A message on the tenant's channel under the event name of the batch
    publisher. *)
Definition batch_message (tenant : string) (m : string * string * value) : Prop :=
  m.1 = ("private-" +:+ tenant, "async-alerts").
(** * Properties *)

(** ** Enrichment endpoints *)

Lemma list_remove_first_not_in (x : string) (l : list string) :
  x ∉ l → list_remove_first x l = l.
Proof.
  induction l as [|y l IH]; intros Hx; [done|]. simpl.
  apply not_elem_of_cons in Hx as [Hxy Hl].
  destruct (decide (x = y)); [done|]. by rewrite IH.
Qed.

Lemma list_remove_first_snoc (x : string) (l : list string) :
  x ∉ l → list_remove_first x (l ++ [x]) = l.
Proof.
  induction l as [|y l IH]; intros Hx; simpl.
  - by destruct (decide (x = x)).
  - apply not_elem_of_cons in Hx as [Hxy Hl].
    destruct (decide (x = y)); [done|]. by rewrite IH.
Qed.

Lemma occurrences_app (x : string) (l1 l2 : list string) :
  occurrences x (l1 ++ l2) = (occurrences x l1 + occurrences x l2)%nat.
Proof. unfold occurrences. by rewrite filter_app, length_app. Qed.

Lemma occurrences_replicate (x : string) (n : nat) :
  occurrences x (replicate n x) = n.
Proof.
  unfold occurrences. induction n as [|n IH]; [done|]. simpl.
  rewrite filter_cons_True by done. simpl. by rewrite IH.
Qed.

Lemma occurrences_remove_first (x : string) (l : list string) :
  occurrences x (list_remove_first x l) = pred (occurrences x l).
Proof.
  unfold occurrences. induction l as [|y l IH]; [done|]. simpl.
  destruct (decide (x = y)) as [->|Hne].
  - by rewrite filter_cons_True.
  - rewrite !filter_cons_False by congruence. done.
Qed.

Lemma occurrences_pos (x : string) (l : list string) :
  x ∈ l → (0 < occurrences x l)%nat.
Proof.
  unfold occurrences. induction 1 as [|y z l Hin IH].
  - rewrite filter_cons_True by done. simpl. lia.
  - destruct (decide (z = y)) as [->|Hne].
    + rewrite filter_cons_True by done. simpl. lia.
    + by rewrite filter_cons_False.
Qed.

(** The upsert of the two reserved keys, key by key. *)
Lemma enrich_alert_db_reserved (tenant fp : string) (d a : value)
    (db : enrichment_db) :
  enrich_alert_db tenant fp (<["deleted" := d]> (<["assignees" := a]> ∅)) db
  = <[(tenant, fp) :=
        <["deleted" := d]> (<["assignees" := a]> (default ∅ (db !! (tenant, fp))))]> db.
Proof.
  unfold enrich_alert_db. destruct (db !! (tenant, fp)) as [old|]; simpl; [|done].
  by rewrite <- !insert_union_l, (left_id_L ∅ (∪)).
Qed.

Lemma enrich_alert_db_assignees (tenant fp : string) (a : value)
    (db : enrichment_db) :
  enrich_alert_db tenant fp (<["assignees" := a]> ∅) db
  = <[(tenant, fp) := <["assignees" := a]> (default ∅ (db !! (tenant, fp)))]> db.
Proof.
  unfold enrich_alert_db. destruct (db !! (tenant, fp)) as [old|]; simpl; [|done].
  by rewrite <- !insert_union_l, (left_id_L ∅ (∪)).
Qed.

(** What [delete_alert] writes on an overlay whose reserved keys are
    well-typed. *)
Lemma delete_alert_ok (body : DeleteRequestBody) (tenant user_email : string)
    (db : enrichment_db) :
  let k := (tenant, dr_fingerprint body) in
  let lr := dr_lastReceived body in
  overlay_ok (db !! k) →
  delete_alert body tenant user_email db
  = Returned
      (status_ok,
       <[k := <["deleted" :=
                 VList (if dr_restore body
                        then list_remove_first lr (deleted_of (db !! k))
                        else deleted_of (db !! k) ++ [lr])]>
              (<["assignees" :=
                   VDict (if decide (is_Some (assignees_of (db !! k) !! lr))
                          then assignees_of (db !! k)
                          else <[lr:=user_email]> (assignees_of (db !! k)))]>
                 (default ∅ (db !! k)))]> db).
Proof.
  intros k lr Hok. subst k lr. rewrite <- enrich_alert_db_reserved.
  unfold delete_alert, get_enrichment.
  set (k := (tenant, dr_fingerprint body)) in *.
  set (lr := dr_lastReceived body) in *.
  assert (Hd : (match db !! k with
                | Some e => let d := default (VList []) (e !! "deleted") in
                            if is_bool d then VList [] else d
                | None => VList []
                end) = VList (deleted_of (db !! k))).
  { destruct (db !! k) as [e|]; simpl in *; [|done].
    destruct Hok as [Hd _]. by destruct (e !! "deleted") as [[]|]. }
  assert (Ha : (match db !! k with
                | Some e => default (VDict ∅) (e !! "assignees")
                | None => VDict ∅
                end) = VDict (assignees_of (db !! k))).
  { destruct (db !! k) as [e|]; simpl in *; [|done].
    destruct Hok as [_ Ha]. by destruct (e !! "assignees") as [[]|]. }
  cbv zeta in *. rewrite Hd, Ha.
  destruct (dr_restore body); simpl.
  - case_bool_decide; simpl.
    + case_bool_decide; by case_decide.
    + rewrite list_remove_first_not_in by done.
      case_bool_decide; by case_decide.
  - case_bool_decide; by case_decide.
Qed.

(** The overlay [delete_alert] leaves behind. *)
Lemma delete_alert_overlay (body : DeleteRequestBody) (tenant user_email : string)
    (db : enrichment_db) :
  let k := (tenant, dr_fingerprint body) in
  let lr := dr_lastReceived body in
  overlay_ok (db !! k) →
  ∃ db', delete_alert body tenant user_email db = Returned (status_ok, db')
    ∧ overlay_ok (db' !! k)
    ∧ deleted_of (db' !! k)
      = (if dr_restore body then list_remove_first lr (deleted_of (db !! k))
         else deleted_of (db !! k) ++ [lr])
    ∧ assignees_of (db' !! k)
      = (if decide (is_Some (assignees_of (db !! k) !! lr))
         then assignees_of (db !! k)
         else <[lr:=user_email]> (assignees_of (db !! k)))
    ∧ (∀ name, name ≠ "deleted" → name ≠ "assignees" →
         default ∅ (db' !! k) !! name = default ∅ (db !! k) !! name)
    ∧ (∀ k', k' ≠ k → db' !! k' = db !! k').
Proof.
  intros k lr Hok. eexists. split; [by apply delete_alert_ok|].
  fold k lr. rewrite lookup_insert_eq. simpl.
  rewrite lookup_insert_eq, lookup_insert_ne, lookup_insert_eq by done.
  repeat split; try done.
  - intros name H1 H2. by rewrite !lookup_insert_ne.
  - intros k' Hk'. by rewrite lookup_insert_ne.
Qed.

(** What [assign_alert] writes on an overlay whose reserved keys are
    well-typed. *)
Lemma assign_alert_ok (fp last_received : string) (unassign : bool)
    (tenant user_email : string) (db : enrichment_db) :
  let k := (tenant, fp) in
  overlay_ok (db !! k) →
  assign_alert fp last_received unassign tenant user_email db
  = Returned
      (status_ok,
       <[k := <["assignees" :=
                 VDict (if unassign
                        then delete last_received (assignees_of (db !! k))
                        else <[last_received:=user_email]> (assignees_of (db !! k)))]>
              (default ∅ (db !! k))]> db).
Proof.
  intros k Hok. subst k. rewrite <- enrich_alert_db_assignees.
  unfold assign_alert, get_enrichment.
  set (k := (tenant, fp)) in *.
  assert (Ha : (match db !! k with
                | Some e => default (VDict ∅) (e !! "assignees")
                | None => VDict ∅
                end) = VDict (assignees_of (db !! k))).
  { destruct (db !! k) as [e|]; simpl in *; [|done].
    destruct Hok as [_ Ha]. by destruct (e !! "assignees") as [[]|]. }
  cbv zeta. rewrite Ha. by destruct unassign.
Qed.

Lemma overlay_ok_assigned (e : gmap string value) (d : gmap string string) :
  overlay_ok (Some e) → overlay_ok (Some (<["assignees" := VDict d]> e)).
Proof.
  intros [Hd _]. simpl. rewrite lookup_insert_ne, lookup_insert_eq by done. done.
Qed.

(** C8 (amended): deleting a [lastReceived] that is not in the [deleted]
    sequence and then restoring it gives back the [deleted] sequence of
    before the delete, which does not contain the value; the assignee entry
    recorded for that [lastReceived] at delete time is still there after the
    restore, and so is the rest of the assignees mapping. *)
Theorem delete_restore_round_trip (db : enrichment_db)
    (tenant fp lr deleter restorer : string) :
  overlay_ok (db !! (tenant, fp)) →
  lr ∉ deleted_of (db !! (tenant, fp)) →
  ∃ db1 db2,
    delete_alert {| dr_fingerprint := fp; dr_lastReceived := lr; dr_restore := false |}
                 tenant deleter db = Returned (status_ok, db1)
    ∧ delete_alert {| dr_fingerprint := fp; dr_lastReceived := lr; dr_restore := true |}
                   tenant restorer db1 = Returned (status_ok, db2)
    ∧ (lr ∉ deleted_of (db2 !! (tenant, fp)))
    ∧ deleted_of (db2 !! (tenant, fp)) = deleted_of (db !! (tenant, fp))
    ∧ is_Some (assignees_of (db1 !! (tenant, fp)) !! lr)
    ∧ assignees_of (db2 !! (tenant, fp)) = assignees_of (db1 !! (tenant, fp)).
Proof.
  intros Hok Hnew.
  destruct (delete_alert_overlay
              {| dr_fingerprint := fp; dr_lastReceived := lr; dr_restore := false |}
              tenant deleter db Hok) as (db1 & E1 & Hok1 & Hd1 & Ha1 & _).
  destruct (delete_alert_overlay
              {| dr_fingerprint := fp; dr_lastReceived := lr; dr_restore := true |}
              tenant restorer db1 Hok1) as (db2 & E2 & _ & Hd2 & Ha2 & _).
  simpl in *. exists db1, db2.
  assert (Hassigned : is_Some (assignees_of (db1 !! (tenant, fp)) !! lr)).
  { rewrite Ha1.
    destruct (decide (is_Some (assignees_of (db !! (tenant, fp)) !! lr))); [done|].
    rewrite lookup_insert_eq. by eexists. }
  assert (Hback : deleted_of (db2 !! (tenant, fp)) = deleted_of (db !! (tenant, fp))).
  { rewrite Hd2, Hd1. by apply list_remove_first_snoc. }
  repeat split; try done.
  - by rewrite Hback.
  - rewrite Ha2.
    by destruct (decide (is_Some (assignees_of (db1 !! (tenant, fp)) !! lr))).
Qed.

(** C9 (amended): assigning the same [lastReceived] to the same user twice
    stores what assigning once stores.  Unassigning a [lastReceived] that is
    not assigned succeeds and leaves the assignees mapping, the other fields
    of the overlay and the other overlays as they were; the store itself is
    unchanged when the overlay already has an [assignees] entry, and an
    overlay holding just an empty [assignees] mapping is created when the
    fingerprint had none. *)
Theorem assign_twice_unassign_unassigned (db : enrichment_db)
    (tenant fp lr user_email : string) :
  overlay_ok (db !! (tenant, fp)) →
  (∃ db1,
      assign_alert fp lr false tenant user_email db = Returned (status_ok, db1)
      ∧ assign_alert fp lr false tenant user_email db1 = Returned (status_ok, db1))
  ∧ (assignees_of (db !! (tenant, fp)) !! lr = None →
     ∃ db',
       assign_alert fp lr true tenant user_email db = Returned (status_ok, db')
       ∧ assignees_of (db' !! (tenant, fp)) = assignees_of (db !! (tenant, fp))
       ∧ (∀ name, name ≠ "assignees" →
            default ∅ (db' !! (tenant, fp)) !! name
            = default ∅ (db !! (tenant, fp)) !! name)
       ∧ (∀ k', k' ≠ (tenant, fp) → db' !! k' = db !! k')
       ∧ (∀ e d, db !! (tenant, fp) = Some e →
                 e !! "assignees" = Some (VDict d) → db' = db)
       ∧ (db !! (tenant, fp) = None →
          db' !! (tenant, fp) = Some {["assignees" := VDict ∅]})).
Proof.
  intros Hok. split.
  - eexists. split; [by apply assign_alert_ok|].
    rewrite assign_alert_ok.
    + rewrite lookup_insert_eq. simpl.
      rewrite lookup_insert_eq, !insert_insert_eq. done.
    + rewrite lookup_insert_eq.
      apply overlay_ok_assigned.
      destruct (db !! (tenant, fp)); simpl in *; [done|].
      by rewrite lookup_empty.
  - intros Hfree. eexists. split; [by apply assign_alert_ok|].
    rewrite lookup_insert_eq. simpl. rewrite lookup_insert_eq.
    rewrite (delete_id _ _ Hfree).
    repeat split.
    + intros name Hname. by rewrite lookup_insert_ne.
    + intros k' Hk'. by rewrite lookup_insert_ne.
    + intros e d He Hd. rewrite He. simpl. rewrite Hd.
      rewrite (insert_id e) by done. by apply insert_id.
    + intros Hnone. by rewrite Hnone.
Qed.

Lemma delete_repeatedly_overlay (fp lr tenant : string) (users : list string)
    (db : enrichment_db) :
  overlay_ok (db !! (tenant, fp)) →
  ∃ db', delete_repeatedly fp lr tenant users db = Returned db'
    ∧ overlay_ok (db' !! (tenant, fp))
    ∧ deleted_of (db' !! (tenant, fp))
      = deleted_of (db !! (tenant, fp)) ++ replicate (length users) lr.
Proof.
  revert db. induction users as [|u users IH]; intros db Hok; simpl.
  - exists db. by rewrite (right_id_L [] (++)).
  - destruct (delete_alert_overlay
                {| dr_fingerprint := fp; dr_lastReceived := lr; dr_restore := false |}
                tenant u db Hok) as (db1 & E1 & Hok1 & Hd1 & _).
    simpl in *. rewrite E1. simpl.
    destruct (IH db1 Hok1) as (db' & E' & Hok' & Hd').
    exists db'. repeat split; try done.
    rewrite Hd', Hd1, <- (assoc_L (++)). done.
Qed.

(** C10: soft-delete is not idempotent.  Each delete call appends the
    [lastReceived] to the [deleted] sequence, whether or not the value is
    already there, so [n] calls add [n] occurrences; a restore call removes
    the first occurrence only, one occurrence less than before. *)
Theorem soft_delete_appends_again (db : enrichment_db)
    (tenant fp lr : string) (users : list string) :
  overlay_ok (db !! (tenant, fp)) →
  ∃ db',
    delete_repeatedly fp lr tenant users db = Returned db'
    ∧ deleted_of (db' !! (tenant, fp))
      = deleted_of (db !! (tenant, fp)) ++ replicate (length users) lr
    ∧ occurrences lr (deleted_of (db' !! (tenant, fp)))
      = (occurrences lr (deleted_of (db !! (tenant, fp))) + length users)%nat
    ∧ ∀ restorer, ∃ db'',
        delete_alert {| dr_fingerprint := fp; dr_lastReceived := lr; dr_restore := true |}
                     tenant restorer db' = Returned (status_ok, db'')
        ∧ deleted_of (db'' !! (tenant, fp))
          = list_remove_first lr (deleted_of (db' !! (tenant, fp)))
        ∧ occurrences lr (deleted_of (db'' !! (tenant, fp)))
          = pred (occurrences lr (deleted_of (db' !! (tenant, fp)))).
Proof.
  intros Hok.
  destruct (delete_repeatedly_overlay fp lr tenant users db Hok)
    as (db' & E' & Hok' & Hd').
  exists db'. repeat split; try done.
  - by rewrite Hd', occurrences_app, occurrences_replicate.
  - intros restorer.
    destruct (delete_alert_overlay
                {| dr_fingerprint := fp; dr_lastReceived := lr; dr_restore := true |}
                tenant restorer db' Hok') as (db'' & E'' & _ & Hd'' & _).
    simpl in *. exists db''. repeat split; try done.
    by rewrite Hd'', occurrences_remove_first.
Qed.

Lemma store_deleted_once_reached :
  delete_alert {| dr_fingerprint := "fp1"; dr_lastReceived := ts1; dr_restore := false |}
               "T1" "alice" ∅
  = Returned (status_ok, store_deleted_once).
Proof. rewrite delete_alert_ok by (by rewrite lookup_empty). done. Qed.

Lemma delete_restore_round_trip_witness :
  overlay_ok ((∅ : enrichment_db) !! ("T1", "fp1"))
  ∧ (ts1 ∉ deleted_of ((∅ : enrichment_db) !! ("T1", "fp1")))
  ∧ ∃ db1 db2,
      delete_alert {| dr_fingerprint := "fp1"; dr_lastReceived := ts1; dr_restore := false |}
                   "T1" "alice" ∅ = Returned (status_ok, db1)
      ∧ delete_alert {| dr_fingerprint := "fp1"; dr_lastReceived := ts1; dr_restore := true |}
                     "T1" "bob" db1 = Returned (status_ok, db2)
      ∧ (ts1 ∉ deleted_of (db2 !! ("T1", "fp1")))
      ∧ deleted_of (db2 !! ("T1", "fp1")) = deleted_of ((∅ : enrichment_db) !! ("T1", "fp1"))
      ∧ is_Some (assignees_of (db1 !! ("T1", "fp1")) !! ts1)
      ∧ assignees_of (db2 !! ("T1", "fp1")) = assignees_of (db1 !! ("T1", "fp1")).
Proof.
  assert (H1 : overlay_ok ((∅ : enrichment_db) !! ("T1", "fp1"))) by (vm_compute; done).
  assert (H2 : ts1 ∉ deleted_of ((∅ : enrichment_db) !! ("T1", "fp1")))
    by (rewrite lookup_empty; apply not_elem_of_nil).
  split; [exact H1|]. split; [exact H2|].
  exact (delete_restore_round_trip ∅ "T1" "fp1" ts1 "alice" "bob" H1 H2).
Defined.

(** C8 as stated fails when the value was soft-deleted before: after a second
    delete, one restore leaves the first occurrence in the sequence. *)
Lemma delete_restore_keeps_earlier_delete :
  ¬ (∀ (db : enrichment_db) (tenant fp lr deleter restorer : string)
       (db1 db2 : enrichment_db),
       overlay_ok (db !! (tenant, fp)) →
       delete_alert {| dr_fingerprint := fp; dr_lastReceived := lr; dr_restore := false |}
                    tenant deleter db = Returned (status_ok, db1) →
       delete_alert {| dr_fingerprint := fp; dr_lastReceived := lr; dr_restore := true |}
                    tenant restorer db1 = Returned (status_ok, db2) →
       lr ∉ deleted_of (db2 !! (tenant, fp))).
Proof.
  intros H.
  assert (Hok : overlay_ok (store_deleted_once !! ("T1", "fp1"))) by (vm_compute; done).
  destruct (delete_alert_overlay
              {| dr_fingerprint := "fp1"; dr_lastReceived := ts1; dr_restore := false |}
              "T1" "alice" store_deleted_once Hok) as (db1 & E1 & Hok1 & Hd1 & _).
  destruct (delete_alert_overlay
              {| dr_fingerprint := "fp1"; dr_lastReceived := ts1; dr_restore := true |}
              "T1" "alice" db1 Hok1) as (db2 & E2 & _ & Hd2 & _).
  simpl in *.
  apply (H store_deleted_once "T1" "fp1" ts1 "alice" "alice" db1 db2 Hok E1 E2).
  rewrite Hd2, Hd1. vm_compute. apply list_elem_of_here.
Qed.

Lemma assign_twice_unassign_unassigned_witness :
  overlay_ok (store_deleted_once !! ("T1", "fp1"))
  ∧ (∃ db1,
        assign_alert "fp1" ts2 false "T1" "bob" store_deleted_once
        = Returned (status_ok, db1)
        ∧ assign_alert "fp1" ts2 false "T1" "bob" db1 = Returned (status_ok, db1))
  ∧ (assignees_of (store_deleted_once !! ("T1", "fp1")) !! ts2 = None →
     ∃ db',
       assign_alert "fp1" ts2 true "T1" "bob" store_deleted_once
       = Returned (status_ok, db')
       ∧ assignees_of (db' !! ("T1", "fp1"))
         = assignees_of (store_deleted_once !! ("T1", "fp1"))
       ∧ (∀ name, name ≠ "assignees" →
            default ∅ (db' !! ("T1", "fp1")) !! name
            = default ∅ (store_deleted_once !! ("T1", "fp1")) !! name)
       ∧ (∀ k', k' ≠ ("T1", "fp1") → db' !! k' = store_deleted_once !! k')
       ∧ (∀ e d, store_deleted_once !! ("T1", "fp1") = Some e →
                 e !! "assignees" = Some (VDict d) → db' = store_deleted_once)
       ∧ (store_deleted_once !! ("T1", "fp1") = None →
          db' !! ("T1", "fp1") = Some {["assignees" := VDict ∅]})).
Proof.
  assert (H1 : overlay_ok (store_deleted_once !! ("T1", "fp1"))) by (vm_compute; done).
  split; [exact H1|].
  exact (assign_twice_unassign_unassigned store_deleted_once "T1" "fp1" ts2 "bob" H1).
Defined.

(** The second conjunct is not vacuous there: [ts2] is not assigned. *)
Example ts2_is_not_assigned :
  assignees_of (store_deleted_once !! ("T1", "fp1")) !! ts2 = None.
Proof. vm_compute. reflexivity. Qed.

(** C9 as stated fails for a fingerprint without overlay: unassigning creates
    an overlay holding an empty [assignees] mapping. *)
Lemma unassign_creates_overlay :
  ¬ (∀ (db : enrichment_db) (tenant fp lr user_email : string)
       (db' : enrichment_db),
       overlay_ok (db !! (tenant, fp)) →
       assignees_of (db !! (tenant, fp)) !! lr = None →
       assign_alert fp lr true tenant user_email db = Returned (status_ok, db') →
       db' !! (tenant, fp) = db !! (tenant, fp)).
Proof.
  intros H.
  assert (Hok : overlay_ok ((∅ : enrichment_db) !! ("T1", "fp1"))) by (vm_compute; done).
  pose proof (H ∅ "T1" "fp1" ts1 "alice" _ Hok eq_refl
                (assign_alert_ok "fp1" ts1 true "T1" "alice" ∅ Hok)) as Heq.
  rewrite lookup_insert_eq, lookup_empty in Heq. discriminate.
Qed.

Lemma soft_delete_appends_again_witness :
  overlay_ok ((∅ : enrichment_db) !! ("T1", "fp1"))
  ∧ ∃ db',
      delete_repeatedly "fp1" ts1 "T1" ["alice"; "bob"; "alice"] ∅ = Returned db'
      ∧ deleted_of (db' !! ("T1", "fp1"))
        = deleted_of ((∅ : enrichment_db) !! ("T1", "fp1")) ++ replicate 3 ts1
      ∧ occurrences ts1 (deleted_of (db' !! ("T1", "fp1")))
        = (occurrences ts1 (deleted_of ((∅ : enrichment_db) !! ("T1", "fp1"))) + 3)%nat
      ∧ ∀ restorer, ∃ db'',
          delete_alert {| dr_fingerprint := "fp1"; dr_lastReceived := ts1; dr_restore := true |}
                       "T1" restorer db' = Returned (status_ok, db'')
          ∧ deleted_of (db'' !! ("T1", "fp1"))
            = list_remove_first ts1 (deleted_of (db' !! ("T1", "fp1")))
          ∧ occurrences ts1 (deleted_of (db'' !! ("T1", "fp1")))
            = pred (occurrences ts1 (deleted_of (db' !! ("T1", "fp1")))).
Proof.
  assert (H1 : overlay_ok ((∅ : enrichment_db) !! ("T1", "fp1"))) by (vm_compute; done).
  split; [exact H1|].
  exact (soft_delete_appends_again ∅ "T1" "fp1" ts1 ["alice"; "bob"; "alice"] H1).
Defined.

(** ** The compressed batch publisher *)

Section Batch.
Context {W : Type} (env : Collaborators W).

Lemma triggered_app (t1 t2 : list entry) :
  triggered (t1 ++ t2) = triggered t1 ++ triggered t2.
Proof.
  induction t1 as [|[[] ?|] t1 IH]; simpl; try done. by rewrite IH.
Qed.

(** A flush logs the batch size and sends one message, whatever the pusher
    answers. *)
Lemma send_compressed_alerts_run {L} (data : string) (n : Z) (tenant : string)
    (s : W * L) :
  ∃ raised w',
    send_compressed_alerts env data n tenant (Some PusherClient) s
    = (outcome raised, (w', s.2),
       [Logged "info" "Sending batch of pulled alerts via pusher"
               [("number_of_alerts", VNum n)];
        Called (PusherTrigger ("private-" +:+ tenant) "async-alerts" (VStr data))
               raised]).
Proof.
  unfold send_compressed_alerts, bind, log, trigger, invoke. simpl.
  destruct (pusher_trigger env _ _ _ s.1) as [[[]|e] w'] eqn:E.
  - by exists None, w'.
  - by exists (Some e), w'.
Qed.

(** C7 (amended): for a single alert whose own encoding exceeds the ceiling
    the final flush does not fire; the overflow branch fires once and sends
    the previous payload, which is still the empty string, with a batch size
    of 0.  The alert itself is in no message. *)
Theorem oversized_single_alert_sends_empty_batch {L} (tenant : string)
    (alert : AlertDto) (s : W * L) :
  10240 < len (compress env [alert]) →
  ∃ raised w',
    batch_send_alerts env tenant (Some PusherClient) [alert] s
    = (outcome raised, (w', s.2),
       [Logged "info" "Sending batch of pulled alerts via pusher"
               [("number_of_alerts", VNum 0)];
        Called (PusherTrigger ("private-" +:+ tenant) "async-alerts" (VStr ""))
               raised]).
Proof.
  intros Hbig.
  destruct (send_compressed_alerts_run "" 0 tenant s) as (raised & w' & Hsend).
  exists raised, w'.
  unfold batch_send_alerts, batch_loop, batch_step, bind. simpl.
  destruct (Z.leb_spec (len (compress env [alert])) 10240) as [Hle|_]; [lia|].
  rewrite Hsend. destruct raised; simpl; done.
Qed.

(** C1, the failing input: two alerts of which the first fits the ceiling
    and the pair does not.  The overflow sends the first alert alone and
    resets [new_compressed_batch] to the empty string, so the flush after
    the loop does not fire: the second alert is in no message. *)
Theorem batch_drops_alert_after_overflow {L} (tenant : string)
    (a b : AlertDto) (s : W * L) :
  len (compress env [a]) ≤ 10240 →
  10240 < len (compress env [a; b]) →
  ∃ raised w',
    batch_send_alerts env tenant (Some PusherClient) [a; b] s
    = (outcome raised, (w', s.2),
       [Logged "info" "Sending batch of pulled alerts via pusher"
               [("number_of_alerts", VNum 1)];
        Called (PusherTrigger ("private-" +:+ tenant) "async-alerts"
                              (VStr (compress env [a])))
               raised]).
Proof.
  intros Hfits Hover.
  destruct (send_compressed_alerts_run (compress env [a]) 1 tenant s)
    as (raised & w' & Hsend).
  exists raised, w'.
  unfold batch_send_alerts, batch_loop, batch_step, bind. simpl.
  destruct (Z.leb_spec (len (compress env [a])) 10240) as [_|Hgt]; [|lia].
  simpl.
  destruct (Z.leb_spec (len (compress env [a; b])) 10240) as [Hle|_]; [lia|].
  change (0 + 1) with 1. rewrite Hsend. destruct raised; simpl; done.
Qed.

(** The publisher never sends more than the ceiling. *)
Lemma batch_loop_within_ceiling {L} (tenant : string) (alerts : list AlertDto) :
  ∀ (b : batch) (s : W * L),
    len (previous_compressed_batch b) ≤ 10240 →
    Forall within_ceiling
      (triggered (batch_loop env tenant (Some PusherClient) b alerts s).2)
    ∧ ∀ b', (batch_loop env tenant (Some PusherClient) b alerts s).1.1 = Returned b' →
            len (previous_compressed_batch b') ≤ 10240.
Proof.
  induction alerts as [|alert alerts IH]; intros b s Hprev.
  - simpl. split; [constructor|]. by intros b' [= <-].
  - simpl. unfold bind, batch_step.
    destruct (Z.leb_spec (len (compress env (batch_send b ++ [alert]))) 10240)
      as [Hle|Hgt].
    + simpl.
      match goal with |- context [batch_loop _ _ _ ?b0 _ _] =>
        specialize (IH b0 s Hle) end.
      destruct (batch_loop _ _ _ _ alerts s) as [[r s2] t2]. simpl in *. done.
    + unfold bind.
      destruct (send_compressed_alerts_run (previous_compressed_batch b)
                  (number_of_alerts_in_batch b) tenant s) as (raised & w' & ->).
      destruct raised as [e|]; simpl.
      * split; [|done]. repeat constructor. by eexists.
      * match goal with |- context [batch_loop _ _ _ ?b0 _ ?s0] =>
          specialize (IH b0 s0 Hprev) end.
        destruct (batch_loop _ _ _ _ alerts _) as [[r s2] t2]. simpl in *.
        destruct IH as [IH1 IH2]. split; [|done].
        constructor; [by eexists|done].
Qed.

(** X1: with a pusher client, every message of the publisher carries a
    payload of at most 10240 characters, whatever the compressor and the
    pusher do. *)
Lemma batch_send_alerts_within_ceiling {L} (tenant : string)
    (alerts : list AlertDto) (s : W * L) :
  Forall within_ceiling
    (triggered (batch_send_alerts env tenant (Some PusherClient) alerts s).2).
Proof.
  unfold batch_send_alerts, bind.
  destruct (batch_loop_within_ceiling tenant alerts batch_init s) as [Hloop _];
    [simpl; vm_compute; discriminate|].
  destruct (batch_loop _ _ _ _ alerts s) as [[[b|e] s1] t1]; simpl in *; [|done].
  destruct (negb _ && _) eqn:Hflush.
  - apply andb_true_iff in Hflush as [_ Hlt%Z.ltb_lt].
    destruct (send_compressed_alerts_run (new_compressed_batch b)
                (number_of_alerts_in_batch b) tenant s1) as (raised & w' & ->).
    cbn [snd]. rewrite triggered_app. apply Forall_app. split; [done|].
    simpl. repeat constructor. eexists. split; [done|lia].
  - simpl. by rewrite (right_id_L [] (++)).
Qed.

End Batch.

Lemma batch_drops_alert_after_overflow_witness :
  len (compress (scripted quiet) [alert_a]) ≤ 10240
  ∧ 10240 < len (compress (scripted quiet) [alert_a; alert_b])
  ∧ ∃ raised w',
      batch_send_alerts (scripted quiet) "T1" (Some PusherClient)
                        [alert_a; alert_b] (tt, tt)
      = (outcome raised, (w', tt),
         [Logged "info" "Sending batch of pulled alerts via pusher"
                 [("number_of_alerts", VNum 1)];
          Called (PusherTrigger ("private-" +:+ "T1") "async-alerts"
                                (VStr (compress (scripted quiet) [alert_a])))
                 raised]).
Proof.
  assert (H1 : len (compress (scripted quiet) [alert_a]) ≤ 10240)
    by (apply Z.leb_le; vm_compute; reflexivity).
  assert (H2 : 10240 < len (compress (scripted quiet) [alert_a; alert_b]))
    by (apply Z.ltb_lt; vm_compute; reflexivity).
  split; [exact H1|]. split; [exact H2|].
  exact (batch_drops_alert_after_overflow (scripted quiet) "T1"
           alert_a alert_b (tt, tt) H1 H2).
Defined.

(** The second alert of the failing input fits the ceiling on its own. *)
Example dropped_alert_fits_alone :
  len (compress (scripted quiet) [alert_b]) = 6001.
Proof. vm_compute. reflexivity. Qed.

(** The flush after the loop compares with [<] where the loop compares with
    [<=]: a batch of exactly 10240 characters is accepted and never sent. *)
Example brimful_batch_is_not_flushed :
  len (compress (scripted quiet) [alert_brimful]) = 10240
  ∧ batch_send_alerts (scripted quiet) "T1" (Some PusherClient)
                      [alert_brimful] (tt, tt)
    = (Returned tt, (tt, tt), []).
Proof. split; vm_compute; reflexivity. Qed.

(** A second overflow sends [previous_compressed_batch] again, which still
    holds the first batch: the first alert is published twice, the second
    and the third not at all. *)
Example stale_batch_is_sent_again :
  triggered (batch_send_alerts (scripted quiet) "T1" (Some PusherClient)
                               [alert_a; alert_b; alert_c] (tt, tt)).2
  = [("private-T1", "async-alerts", VStr (weigh_compress [alert_a]));
     ("private-T1", "async-alerts", VStr (weigh_compress [alert_a]))].
Proof. vm_compute. reflexivity. Qed.

Lemma oversized_single_alert_sends_empty_batch_witness :
  10240 < len (compress (scripted quiet) [alert_oversized])
  ∧ ∃ raised w',
      batch_send_alerts (scripted quiet) "T1" (Some PusherClient)
                        [alert_oversized] (tt, tt)
      = (outcome raised, (w', tt),
         [Logged "info" "Sending batch of pulled alerts via pusher"
                 [("number_of_alerts", VNum 0)];
          Called (PusherTrigger ("private-" +:+ "T1") "async-alerts" (VStr ""))
                 raised]).
Proof.
  assert (H1 : 10240 < len (compress (scripted quiet) [alert_oversized]))
    by (apply Z.ltb_lt; vm_compute; reflexivity).
  split; [exact H1|].
  exact (oversized_single_alert_sends_empty_batch (scripted quiet) "T1"
           alert_oversized (tt, tt) H1).
Defined.

(** C7 as stated fails: on a single oversized alert the overflow branch does
    fire, and the sink receives a message. *)
Lemma oversized_single_alert_flush_fires :
  ¬ (∀ (env : Collaborators unit) (tenant : string) (alert : AlertDto)
       (s : unit * unit),
       10240 < len (compress env [alert]) →
       triggered (batch_send_alerts env tenant (Some PusherClient) [alert] s).2
       = []).
Proof.
  intros H.
  specialize (H (scripted quiet) "T1" alert_oversized (tt, tt)).
  assert (H1 : 10240 < len (compress (scripted quiet) [alert_oversized]))
    by (apply Z.ltb_lt; vm_compute; reflexivity).
  specialize (H H1). vm_compute in H. discriminate.
Qed.

(** ** The ingestion pipeline *)

Section IngestionRuns.
Context {W : Type} (env : Collaborators W).
Context (tenant provider_type : string) (provider_id : option string).
Context (pusher_client : option Pusher).

Lemma push_alert_run {L} (alert : AlertDto) (s : W * L) :
  ∃ t w',
    push_alert env tenant pusher_client alert s = (Returned tt, (w', s.2), t)
    ∧ push_trace env tenant pusher_client alert t.
Proof.
  unfold push_alert, try_except, trigger, push_trace.
  destruct pusher_client as [p|]; simpl.
  - unfold invoke.
    destruct (pusher_trigger env _ _ _ s.1) as [[[]|e] w'].
    + exists [Called (PusherTrigger ("private-" +:+ tenant) "async-alerts"
                       (VStr (compress env [alert]))) None], w'.
      split; [done|]. by exists None.
    + eexists _, w'. split; [done|]. by exists (Some e).
  - exists [push_failed], s.1. by destruct s.
Qed.

Lemma persist_event_run (i : nat) (formatted_event : AlertDto) (w : W)
    (l : locals) :
  ∃ t formatted_event' completed r w',
    persist_event env tenant provider_type provider_id pusher_client
                  i formatted_event (w, l)
    = (r, (w', {| formatted_events := <[i:=formatted_event']> (formatted_events l);
                  workflow_manager := workflow_manager l |}), t)
    ∧ stage_a_block env tenant provider_type provider_id pusher_client
                    formatted_event t formatted_event' completed
    ∧ (if completed then r = Returned tt else ∃ e, r = Raised e).
Proof.
  unfold persist_event, set_event, bind, get_locals, set_locals, invoke. simpl.
  fold (pushed formatted_event).
  fold (alert_row tenant provider_type provider_id formatted_event).
  destruct (session_add env _ w) as [[alert_id|e] w1].
  - simpl. rewrite list_insert_insert_eq.
    fold (persisted formatted_event alert_id).
    destruct (get_enrichments_from_db env _ _ w1) as [[alert_enrichments|e] w2].
    + simpl.
      destruct (push_alert_run
                  (merge_enrichments (pushed formatted_event) alert_enrichments)
                  (w2, {| formatted_events :=
                            <[i:=persisted formatted_event alert_id]> (formatted_events l);
                          workflow_manager := workflow_manager l |}))
        as (t & w' & -> & Hpush).
      simpl. eexists _, _, true, _, _. split; [done|]. split; [|done].
      econstructor. exact Hpush.
    + simpl. eexists _, _, false, _, _. split; [done|]. split; [|by eexists].
      apply block_enrichments_raised.
  - simpl. eexists _, _, false, _, _. split; [done|]. split; [|by eexists].
    apply block_add_raised.
Qed.

Lemma persist_events_run (todo : list AlertDto) :
  ∀ (done_events : list AlertDto) (w : W) (manager : option WorkflowManager),
  ∃ t todo' completed r w',
    persist_events env tenant provider_type provider_id pusher_client
                   (length done_events) todo
                   (w, {| formatted_events := done_events ++ todo;
                          workflow_manager := manager |})
    = (r, (w', {| formatted_events := done_events ++ todo';
                  workflow_manager := manager |}), t)
    ∧ stage_a_loop env tenant provider_type provider_id pusher_client
                   todo t todo' completed
    ∧ (if completed then r = Returned tt else ∃ e, r = Raised e).
Proof.
  induction todo as [|formatted_event todo IH]; intros done_events w manager.
  - simpl. eexists [], [], true, _, w. split; [done|]. split; [constructor|done].
  - simpl. unfold bind.
    destruct (persist_event_run (length done_events) formatted_event w
                {| formatted_events := done_events ++ formatted_event :: todo;
                   workflow_manager := manager |})
      as (t & formatted_event' & completed & r & w1 & -> & Hblock & Hr).
    simpl.
    rewrite insert_app_r_alt, Nat.sub_diag by lia. simpl.
    destruct completed.
    + subst r.
      destruct (IH (done_events ++ [formatted_event']) w1 manager)
        as (t' & todo' & completed & r & w2 & Hrun & Hloop & Hr).
      rewrite length_app, Nat.add_1_r, <- !(assoc_L (++)) in Hrun. simpl in Hrun.
      rewrite Hrun.
      eexists _, (formatted_event' :: todo'), completed, r, w2.
      split; [done|]. split; [|done]. by eapply loop_next.
    + destruct Hr as [e ->].
      eexists _, (formatted_event' :: todo), false, _, w1.
      split; [done|]. split; [|by eexists]. by apply loop_abort.
Qed.

Lemma stage_a_loop_length (todo : list AlertDto) (t : list entry)
    (todo' : list AlertDto) (completed : bool) :
  stage_a_loop env tenant provider_type provider_id pusher_client
               todo t todo' completed →
  length todo' = length todo.
Proof. induction 1; simpl; congruence. Qed.

Lemma stage_a_run (events : list AlertDto) (w : W)
    (manager : option WorkflowManager) :
  ∃ t events' w',
    stage_a env tenant provider_type provider_id pusher_client
            (w, {| formatted_events := events; workflow_manager := manager |})
    = (Returned tt,
       (w', {| formatted_events := events'; workflow_manager := manager |}), t)
    ∧ stage_a_trace env tenant provider_type provider_id pusher_client
                    events t events'.
Proof.
  unfold stage_a, try_except, bind, get_locals. simpl.
  destruct (persist_events_run events [] w manager)
    as (t & events' & completed & r & w1 & Hrun & Hloop & Hr).
  simpl in Hrun. rewrite Hrun.
  pose proof (stage_a_loop_length _ _ _ _ Hloop) as Hlen.
  destruct completed.
  - subst r. unfold invoke. simpl.
    destruct (session_commit env w1) as [[[]|e] w2]; simpl.
    + eexists _, events', w2. split; [done|].
      exists t, true. split; [done|]. left. done.
    + unfold log. simpl. eexists _, events', w2. split; [done|].
      exists t, true. split; [done|]. right. exists e.
      by rewrite Hlen, <- (assoc_L (++)).
  - destruct Hr as [e ->]. unfold log. simpl.
    eexists _, events', w1. split; [done|].
    exists t, false. split; [done|]. by rewrite Hlen.
Qed.

Lemma stage_b_run (events : list AlertDto) (w : W) :
  ∃ t manager w',
    stage_b env tenant provider_type provider_id
            (w, {| formatted_events := events; workflow_manager := None |})
    = (Returned tt,
       (w', {| formatted_events := events; workflow_manager := manager |}), t)
    ∧ stage_b_trace tenant provider_type provider_id events t manager.
Proof.
  unfold stage_b, try_except, bind, get_locals, set_locals, invoke, log. simpl.
  destruct (workflow_manager_get_instance env w) as [[[]|e] w1]; simpl.
  - destruct (insert_events env tenant events w1) as [[[]|e] w2]; simpl.
    + eexists _, _, w2. split; [done|]. constructor.
    + eexists _, _, w2. split; [done|]. constructor.
  - eexists _, _, w1. split; [done|]. constructor.
Qed.

Lemma pushes_run {L} (grouped_alerts : list AlertDto) :
  ∀ s : W * L, ∃ t w',
    for_each grouped_alerts (push_alert env tenant pusher_client) s
    = (Returned tt, (w', s.2), t)
    ∧ pushes_trace env tenant pusher_client grouped_alerts t.
Proof.
  induction grouped_alerts as [|g grouped_alerts IH]; intros s; simpl.
  - exists [], s.1. destruct s. split; [done|]. constructor.
  - unfold bind.
    destruct (push_alert_run g s) as (t & w1 & -> & Hpush).
    destruct (IH (w1, s.2)) as (t' & w2 & -> & Hpushes). simpl.
    exists (t ++ t'), w2. split; [done|]. by constructor.
Qed.

Lemma stage_c_run (events : list AlertDto) (w : W)
    (manager : option WorkflowManager) :
  ∃ t w',
    stage_c env tenant provider_type provider_id pusher_client
            (w, {| formatted_events := events; workflow_manager := manager |})
    = (Returned tt,
       (w', {| formatted_events := events; workflow_manager := manager |}), t)
    ∧ stage_c_trace env tenant provider_type provider_id pusher_client
                    events manager t.
Proof.
  unfold stage_c, try_except, bind, get_locals, invoke, log, raise. simpl.
  destruct (rules_engine env tenant w) as [[[]|e] w1]; simpl.
  - destruct (run_rules env tenant events w1) as [[grouped_alerts|e] w2]; simpl.
    + destruct grouped_alerts as [|g grouped_alerts]; simpl.
      * eexists _, w2. split; [done|]. constructor.
      * destruct manager as [m|]; simpl.
        -- destruct (insert_events env tenant _ w2) as [[[]|e] w3]; simpl.
           ++ destruct (pushes_run (g :: grouped_alerts)
                          (w3, {| formatted_events := events;
                                  workflow_manager := Some m |}))
                as (t & w4 & Hrun & Hpushes).
              simpl in Hrun. rewrite Hrun. simpl.
              eexists _, w4. split; [done|].
              by apply (grouped_pushed _ _ _ _ _ _ _ (g :: grouped_alerts)).
           ++ eexists _, w3. split; [done|].
              by apply (grouped_insert_raised _ _ _ _ _ _ _ (g :: grouped_alerts)).
        -- eexists _, w2. split; [done|]. by apply grouped_without_manager.
    + eexists _, w2. split; [done|]. constructor.
  - eexists _, w1. split; [done|]. constructor.
Qed.

(** Every call of the pipeline returns normally, and its trace is a trace of
    Stage A followed by one of Stage B followed by one of Stage C. *)
Lemma ingest_run (events : list AlertDto) (w : W) :
  ∃ tA tB tC events' manager w',
    ingest env tenant provider_type pusher_client provider_id events w
    = (Returned tt, w', events', tA ++ tB ++ tC)
    ∧ stage_a_trace env tenant provider_type provider_id pusher_client
                    events tA events'
    ∧ stage_b_trace tenant provider_type provider_id events' tB manager
    ∧ stage_c_trace env tenant provider_type provider_id pusher_client
                    events' manager tC.
Proof.
  unfold ingest, handle_formatted_events, bind.
  destruct (stage_a_run events w None) as (tA & events' & w1 & -> & HA).
  destruct (stage_b_run events' w1) as (tB & manager & w2 & -> & HB).
  destruct (stage_c_run events' w2 manager) as (tC & w3 & -> & HC).
  by exists tA, tB, tC, events', manager, w3.
Qed.

End IngestionRuns.

(** *** Reading the traces of Stage A *)

Lemma session_added_app (t1 t2 : list entry) :
  session_added (t1 ++ t2) = session_added t1 ++ session_added t2.
Proof.
  induction t1 as [|[[] ?|] t1 IH]; simpl; try done. by rewrite IH.
Qed.

Lemma inserted_events_app (t1 t2 : list entry) :
  inserted_events (t1 ++ t2) = inserted_events t1 ++ inserted_events t2.
Proof.
  induction t1 as [|[[] ?|] t1 IH]; simpl; try done. by rewrite IH.
Qed.

Lemma ruled_events_app (t1 t2 : list entry) :
  ruled_events (t1 ++ t2) = ruled_events t1 ++ ruled_events t2.
Proof.
  induction t1 as [|[[] ?|] t1 IH]; simpl; try done. by rewrite IH.
Qed.

Lemma ruled_events_elem (t : list entry) (events : list AlertDto)
    (raised : option exn) :
  Called (RunRules events) raised ∈ t → events ∈ ruled_events t.
Proof.
  induction t as [|x t IH]; [by intros ?%elem_of_nil|].
  intros [<-|Hin]%elem_of_cons; simpl; [apply list_elem_of_here|].
  destruct x as [[]|]; try by apply IH.
  by apply list_elem_of_further, IH.
Qed.

(** Membership of an entry in a trace given entry by entry. *)
Ltac entry_in_trace H :=
  repeat (apply elem_of_cons in H as [H|H]; [by simplify_eq|]);
  try by apply elem_of_nil in H.

Section IngestionFacts.
Context {W : Type} (env : Collaborators W).
Context (tenant provider_type : string) (provider_id : option string).
Context (pusher_client : option Pusher).

Local Abbreviation block := (stage_a_block env tenant provider_type provider_id pusher_client).
Local Abbreviation loop := (stage_a_loop env tenant provider_type provider_id pusher_client).
Local Abbreviation row := (alert_row tenant provider_type provider_id).

(** The entries of a single-alert message: no store call, no dispatch. *)
Lemma push_trace_quiet (alert : AlertDto) (t : list entry) :
  push_trace env tenant pusher_client alert t →
  session_added t = []
  ∧ Forall (λ x, is_dispatch x = false) t
  ∧ (∀ c e, Called c (Some e) ∈ t → is_store_call c = false)
  ∧ triggered t = match pusher_client with
                  | Some _ => [alert_message env tenant alert]
                  | None => []
                  end.
Proof.
  unfold push_trace. destruct pusher_client as [p|].
  - intros [raised ->]. unfold push_entries.
    destruct raised as [e|]; simpl; split_and!; try done.
    + by repeat constructor.
    + intros c e' [[= -> _]|[[=]|[]%elem_of_nil]%elem_of_cons]%elem_of_cons. done.
    + by repeat constructor.
    + intros c e' [[=]|[]%elem_of_nil]%elem_of_cons.
  - intros ->. simpl. split_and!; try done.
    + by repeat constructor.
    + intros c e' [[=]|[]%elem_of_nil]%elem_of_cons.
Qed.

Lemma same_alert_pushed (a : AlertDto) : same_alert a (pushed a).
Proof. intros name H1 H2. unfold pushed, setattr. by rewrite lookup_insert_ne. Qed.

Lemma same_alert_persisted (a : AlertDto) (alert_id : string) :
  same_alert a (persisted a alert_id).
Proof.
  intros name H1 H2. unfold persisted, pushed, setattr.
  by rewrite !lookup_insert_ne.
Qed.

(** What one round of Stage A leaves in the trace. *)
Lemma stage_a_block_facts (a : AlertDto) (t : list entry) (a' : AlertDto)
    (completed : bool) :
  block a t a' completed →
  session_added t = [row a]
  ∧ Forall (λ x, is_dispatch x = false) t
  ∧ same_alert a a'
  ∧ (∀ c e, Called c (Some e) ∈ t → is_store_call c = true →
            completed = false ∧ ∃ t0, t = t0 ++ [Called c (Some e)])
  ∧ (if completed
     then ∃ alert_enrichments,
            triggered t
            = match pusher_client with
              | Some _ => [alert_message env tenant
                             (merge_enrichments (pushed a) alert_enrichments)]
              | None => []
              end
     else triggered t = []).
Proof.
  destruct 1 as [e|alert_id e|alert_id alert_enrichments t Hpush]; simpl.
  - split_and!; try done.
    + by repeat constructor.
    + apply same_alert_pushed.
    + intros c e' [[= -> ->]|[]%elem_of_nil]%elem_of_cons _.
      split; [done|]. by exists [].
  - split_and!; try done.
    + by repeat constructor.
    + apply same_alert_persisted.
    + intros c e' [[=]|[[= -> ->]|[]%elem_of_nil]%elem_of_cons]%elem_of_cons _.
      split; [done|]. by eexists [_].
  - destruct (push_trace_quiet _ _ Hpush) as (Hadd & Hdisp & Hraise & Htrig).
    rewrite Hadd. split_and!; try done.
    + by repeat constructor.
    + apply same_alert_persisted.
    + intros c e' [[=]|[[=]|Hin]%elem_of_cons]%elem_of_cons Hstore.
      apply Hraise in Hin. congruence.
    + by exists alert_enrichments.
Qed.

(** What the loop of Stage A leaves in the trace: the alerts are stored in
    input order up to the round that raised, each message sits in the round
    of its alert, and a store call that raised ends the loop. *)
Lemma stage_a_loop_facts (todo : list AlertDto) (t : list entry)
    (todo' : list AlertDto) (completed : bool) :
  loop todo t todo' completed →
  Forall (λ x, is_dispatch x = false) t
  ∧ Forall2 same_alert todo todo'
  ∧ (∃ k, (k ≤ length todo)%nat
          ∧ session_added t = row <$> take k todo
          ∧ (∀ j, (k ≤ j)%nat → todo' !! j = todo !! j)
          ∧ (if completed then k = length todo else (0 < k)%nat))
  ∧ (∃ k views,
        triggered t = alert_message env tenant
                      <$> match pusher_client with Some _ => views | None => [] end
        ∧ Forall2 (λ a view, ∃ alert_enrichments,
                     view = merge_enrichments (pushed a) alert_enrichments)
                  (take k todo) views)
  ∧ (∀ c e, Called c (Some e) ∈ t → is_store_call c = true →
            completed = false ∧ ∃ t0, t = t0 ++ [Called c (Some e)]).
Proof.
  induction 1 as [|a todo t a' Hblock|a todo t a' t' todo' completed Hblock Hloop IH].
  - split_and!; try by constructor.
    + exists 0%nat. by split_and!.
    + exists 0%nat, []. split; [by destruct pusher_client|]. constructor.
    + by intros c e []%elem_of_nil.
  - destruct (stage_a_block_facts _ _ _ _ Hblock)
      as (Hadd & Hdisp & Hsame & Hraise & Htrig).
    split_and!; try done.
    + constructor; [done|]. apply Forall2_same_length_lookup_2; [done|].
      intros i x y Hx Hy. assert (x = y) as -> by congruence. by intros ?.
    + exists 1%nat. simpl. split_and!; [lia|done| |lia].
      intros [|j] Hj; [lia|done].
    + exists 0%nat, []. rewrite Htrig. split; [by destruct pusher_client|]. simpl. constructor.
  - destruct (stage_a_block_facts _ _ _ _ Hblock)
      as (Hadd & Hdisp & Hsame & Hraise & ovs & Htrig).
    destruct IH as (IHdisp & IHsame & (k & Hk & IHadd & IHrest & IHk)
                    & (k' & views & IHtrig & IHviews) & IHraise).
    split_and!.
    + by apply Forall_app.
    + by constructor.
    + exists (S k). simpl. rewrite session_added_app, Hadd, IHadd.
      split_and!; [lia|done| |by destruct completed; lia].
      intros [|j] Hj; [lia|]. simpl. apply IHrest. lia.
    + rewrite triggered_app, Htrig, IHtrig.
      exists (S k'), (merge_enrichments (pushed a) ovs :: views).
      split; [by destruct pusher_client|].
      simpl. constructor; [by eexists|done].
    + intros c e [Hin|Hin]%elem_of_app Hstore.
      * by destruct (Hraise c e Hin Hstore).
      * destruct (IHraise c e Hin Hstore) as [-> [t0 ->]].
        split; [done|]. exists (t ++ t0). by rewrite (assoc_L (++)).
Qed.

Lemma stage_a_trace_facts (events : list AlertDto) (t : list entry)
    (events' : list AlertDto) :
  stage_a_trace env tenant provider_type provider_id pusher_client events t events' →
  Forall (λ x, is_dispatch x = false) t
  ∧ Forall2 same_alert events events'
  ∧ (∃ k, (k ≤ length events)%nat ∧ session_added t = row <$> take k events)
  ∧ (∃ k views,
        triggered t = alert_message env tenant
                      <$> match pusher_client with Some _ => views | None => [] end
        ∧ Forall2 (λ a view, ∃ alert_enrichments,
                     view = merge_enrichments (pushed a) alert_enrichments)
                  (take k events) views)
  ∧ (∀ c e, Called c (Some e) ∈ t → is_store_call c = true →
       ∃ t0 k,
         t = t0 ++ [Called c (Some e);
                    stage_a_failed tenant provider_type provider_id (length events)]
         ∧ (0 < k ≤ length events)%nat
         ∧ session_added t = row <$> take k events
         ∧ ∀ j, (k ≤ j)%nat → events' !! j = events !! j).
Proof.
  intros (t_loop & completed & Hloop & Ht).
  destruct (stage_a_loop_facts _ _ _ _ Hloop)
    as (Hdisp & Hsame & (k & Hk & Hadd & Hrest & Hkc) & (k' & views & Htrig & Hviews)
        & Hraise).
  assert (Htail : ∃ t_end,
             t = t_loop ++ t_end ∧ session_added t_end = [] ∧ triggered t_end = []
             ∧ Forall (λ x, is_dispatch x = false) t_end
             ∧ (∀ c e, Called c (Some e) ∈ t_end → is_store_call c = false)
             ∧ (completed = false →
                t_end = [stage_a_failed tenant provider_type provider_id
                                        (length events)])).
  { destruct completed; [destruct Ht as [->|[e ->]]|subst t]; eexists;
      (split; [done|]); split_and!; try done; try by repeat constructor.
    - by intros c e [[=]|[]%elem_of_nil]%elem_of_cons.
    - by intros c e' [[= -> _]|[[=]|[]%elem_of_nil]%elem_of_cons]%elem_of_cons.
    - by intros c e [[=]|[]%elem_of_nil]%elem_of_cons. }
  destruct Htail as (t_end & -> & Hadd_end & Htrig_end & Hdisp_end & Hraise_end & Hend).
  rewrite session_added_app, triggered_app, Hadd_end, Htrig_end, !(right_id_L [] (++)).
  split_and!; try done.
  - by apply Forall_app.
  - by exists k.
  - by exists k', views.
  - intros c e [Hin|Hin]%elem_of_app Hstore.
    + destruct (Hraise c e Hin Hstore) as [-> [t0 ->]].
      exists t0, k. rewrite (Hend eq_refl), <- (assoc_L (++)).
      split_and!; try done.
    + apply Hraise_end in Hin. congruence.
Qed.

Lemma stage_b_trace_facts (events : list AlertDto) (t : list entry)
    (manager : option WorkflowManager) :
  stage_b_trace tenant provider_type provider_id events t manager →
  session_added t = []
  ∧ Forall (λ x, is_rules x = false) t
  ∧ (∀ c e, Called c (Some e) ∈ t → is_store_call c = false)
  ∧ (∃ r t', t = Called WorkflowManagerGetInstance r :: t')
  ∧ (is_Some manager ↔ Called WorkflowManagerGetInstance None ∈ t)
  ∧ inserted_events t = match manager with Some _ => [events] | None => [] end.
Proof.
  destruct 1; simpl; split_and!;
    try done; try (by repeat constructor); try (by eexists _, _);
    try (by intros c e' H; entry_in_trace H).
  split; [by intros [? [=]]|]. intros H. entry_in_trace H.
Qed.

Lemma pushes_trace_quiet (grouped_alerts : list AlertDto) (t : list entry) :
  pushes_trace env tenant pusher_client grouped_alerts t →
  session_added t = []
  ∧ ruled_events t = []
  ∧ (∀ c e, Called c (Some e) ∈ t → is_store_call c = false).
Proof.
  induction 1 as [|g grouped_alerts t t' Hpush _ (IH1 & IH2 & IH3)];
    [by split_and!; [..|intros c e []%elem_of_nil]|].
  destruct (push_trace_quiet _ _ Hpush) as (Hadd & _ & Hraise & _).
  rewrite session_added_app, ruled_events_app, Hadd, IH1, IH2.
  split_and!; try done.
  - unfold push_trace in Hpush. destruct pusher_client.
    + destruct Hpush as [[e|] ->]; done.
    + by subst t.
  - intros c e [Hin|Hin]%elem_of_app; eauto.
Qed.

Lemma stage_c_trace_facts (events : list AlertDto)
    (manager : option WorkflowManager) (t : list entry) :
  stage_c_trace env tenant provider_type provider_id pusher_client events manager t →
  session_added t = []
  ∧ (∀ c e, Called c (Some e) ∈ t → is_store_call c = false)
  ∧ (∃ r t', t = Called (NewRulesEngine tenant) r :: t')
  ∧ (Called (NewRulesEngine tenant) None ∈ t → ruled_events t = [events]).
Proof.
  destruct 1 as [e|e| | |grouped_alerts e|grouped_alerts t Hm Hg Hpushes]; simpl.
  1-5: split_and!; try done; try (by eexists _, _);
       try (by intros c e' Hin; entry_in_trace Hin);
       by intros Hin; entry_in_trace Hin.
  destruct (pushes_trace_quiet _ _ Hpushes) as (Hadd & Hruled & Hraise).
  rewrite Hadd, Hruled. split_and!; try done; [|by eexists _, _].
  intros c e' Hin.
  repeat (apply elem_of_cons in Hin as [Hin|Hin]; [by simplify_eq|]).
  by apply Hraise in Hin.
Qed.



End IngestionFacts.

(** ** Enrichment precedence *)

(** Writing the fields of an overlay one by one over a mapping is the
    union that prefers the overlay. *)
Lemma write_fields_union (fields copy : gmap string value) :
  map_fold (λ name v c, <[name:=v]> c) copy fields = fields ∪ copy.
Proof.
  apply (map_fold_weak_ind (λ r m, r = m ∪ copy)).
  - by rewrite (left_id_L ∅ (∪)).
  - intros name v m r Hfresh ->. by rewrite insert_union_l.
Qed.

Lemma merge_enrichments_fields_from (acc raw : gmap string value)
    (alert_enrichments : list AlertEnrichment) :
  merge_enrichments (acc ∪ raw) alert_enrichments
  = foldl (λ fields e, enrichments e ∪ fields) acc alert_enrichments ∪ raw.
Proof.
  revert acc. induction alert_enrichments as [|e es IH]; intros acc; [done|].
  simpl. rewrite write_fields_union, (assoc_L (∪)). apply IH.
Qed.

Lemma merge_enrichments_fields (raw : AlertDto)
    (alert_enrichments : list AlertEnrichment) :
  merge_enrichments raw alert_enrichments
  = overlay_fields alert_enrichments ∪ raw.
Proof.
  rewrite <- (left_id_L ∅ (∪) raw) at 1. apply merge_enrichments_fields_from.
Qed.

Lemma overlay_fields_single (e : AlertEnrichment) :
  overlay_fields [e] = enrichments e.
Proof. unfold overlay_fields. simpl. by rewrite (right_id_L ∅ (∪)). Qed.

Lemma enrich_pulled_alert_union (e : AlertEnrichment) (alert : AlertDto) :
  enrich_pulled_alert e alert
  = if decide (overlay_of alert e) then enrichments e ∪ alert else alert.
Proof.
  unfold enrich_pulled_alert, overlay_of, setattr.
  destruct (decide _); [|done]. apply write_fields_union.
Qed.

(** The overlays that do not rewrite the fingerprint are merged into the
    pulled alerts of their fingerprint, and into no other. *)
Lemma enrich_pulled_alerts_views (pulled_alerts_enrichments : list AlertEnrichment) :
  Forall (λ e, enrichments e !! "fingerprint" = None) pulled_alerts_enrichments →
  ∀ alerts,
    enrich_pulled_alerts pulled_alerts_enrichments alerts
    = (λ a, overlay_fields (filter (overlay_of a) pulled_alerts_enrichments) ∪ a)
      <$> alerts.
Proof.
  induction 1 as [|e es He Hes IH]; intros alerts.
  - simpl. rewrite <- (list_fmap_id alerts) at 1. apply list_fmap_ext.
    intros _ a _. unfold overlay_fields. simpl. by rewrite (left_id_L ∅ (∪)).
  - unfold enrich_pulled_alerts in *. simpl. rewrite IH, <- list_fmap_compose.
    apply list_fmap_ext. intros _ a _. simpl.
    rewrite enrich_pulled_alert_union.
    assert (Hfp : fingerprint (enrichments e ∪ a) = fingerprint a).
    { unfold fingerprint. rewrite lookup_union_r; done. }
    rewrite filter_cons. destruct (decide (overlay_of a e)) as [Hof|Hof].
    + erewrite (list_filter_iff _ (overlay_of a)); last first.
      { intros x. unfold overlay_of. by rewrite Hfp. }
      rewrite <- !merge_enrichments_fields. simpl.
      by rewrite write_fields_union.
    + done.
Qed.

Section Precedence.
Context {W : Type} (env : Collaborators W).
Context (tenant provider_type : string) (provider_id : option string).
Context (pusher_client : option Pusher).


End Precedence.

(** ** Scenarios of the ingestion pipeline *)

(** The run in which the stored overlay of fingerprint [F] sets [x = 1] and
    the raw event sets [x = 2]: the live feed gets [x = 1], the workflow
    manager and the rules engine get [x = 2]. *)
Example overlay_run :
  triggered (ingest (scripted with_overlay) "T1" "grafana" (Some PusherClient)
                    None [alert_x] tt).2
  = [alert_message (scripted with_overlay) "T1"
       (enrichments overlay_x ∪ pushed alert_x)]
  ∧ (enrichments overlay_x ∪ pushed alert_x) !! "x" = Some (VNum 1)
  ∧ inserted_events (ingest (scripted with_overlay) "T1" "grafana"
                            (Some PusherClient) None [alert_x] tt).2
    = [[persisted alert_x "id-1"]]
  ∧ ruled_events (ingest (scripted with_overlay) "T1" "grafana"
                         (Some PusherClient) None [alert_x] tt).2
    = [[persisted alert_x "id-1"]]
  ∧ persisted alert_x "id-1" !! "x" = Some (VNum 2).
Proof. vm_compute. done. Qed.



(** The run in which the event store raises for the first of two alerts. *)
Example failing_store_run :
  ingest (scripted failing_store) "T1" "grafana" (Some PusherClient) None
         [alert_a; alert_b] tt
  = (Returned tt, tt, [pushed alert_a; alert_b],
     [Called (SessionAdd (alert_row "T1" "grafana" None alert_a))
             (Some (Exception "db down"));
      stage_a_failed "T1" "grafana" None 2;
      Called WorkflowManagerGetInstance None;
      Called (InsertEvents "T1" [pushed alert_a; alert_b]) None;
      Called (NewRulesEngine "T1") None;
      Called (RunRules [pushed alert_a; alert_b]) None]).
Proof. vm_compute. reflexivity. Qed.



(** ** The provider poll orchestrator *)

Lemma pulled_app (t1 t2 : list entry) :
  pulled (t1 ++ t2) = pulled t1 ++ pulled t2.
Proof.
  induction t1 as [|[[] ?|] t1 IH]; simpl; try done. by rewrite IH.
Qed.

Lemma enrich_pulled_alerts_length (pulled_alerts_enrichments : list AlertEnrichment) :
  ∀ alerts,
    length (enrich_pulled_alerts pulled_alerts_enrichments alerts) = length alerts.
Proof.
  unfold enrich_pulled_alerts.
  induction pulled_alerts_enrichments as [|e es IH]; intros alerts; [done|].
  simpl. by rewrite IH, length_fmap.
Qed.

Section Poll.
Context {W : Type} (env : Collaborators W).
Context (tenant : string) (pusher_client : option Pusher).

Lemma send_compressed_alerts_pulled {L} (data : string) (n : Z) (s : W * L) :
  pulled (send_compressed_alerts env data n tenant pusher_client s).2 = [].
Proof.
  unfold send_compressed_alerts, bind, log, trigger, invoke, raise. simpl.
  destruct pusher_client; [|done].
  by destruct (pusher_trigger env _ _ _ s.1) as [[[]|e] w'].
Qed.

Lemma batch_loop_pulled {L} (alerts : list AlertDto) :
  ∀ (b : batch) (s : W * L),
    pulled (batch_loop env tenant pusher_client b alerts s).2 = [].
Proof.
  induction alerts as [|alert alerts IH]; intros b s; [done|].
  simpl. unfold bind, batch_step.
  destruct (len _ <=? 10240).
  - simpl.
    match goal with |- context [batch_loop _ _ _ ?b0 _ ?s0] =>
      specialize (IH b0 s0) end.
    by destruct (batch_loop _ _ _ _ alerts _) as [[r s2] t2].
  - unfold bind.
    pose proof (send_compressed_alerts_pulled (previous_compressed_batch b)
                  (number_of_alerts_in_batch b) s) as Hsend.
    destruct (send_compressed_alerts _ _ _ _ _ s) as [[[[]|e] s1] t1];
      simpl in *; [|done].
    match goal with |- context [batch_loop _ _ _ ?b0 _ ?s0] =>
      specialize (IH b0 s0) end.
    destruct (batch_loop _ _ _ _ alerts _) as [[r s2] t2]. simpl in *.
    by rewrite (right_id_L [] (++)), pulled_app, Hsend, IH.
Qed.

Lemma batch_send_alerts_pulled {L} (alerts : list AlertDto) (s : W * L) :
  pulled (batch_send_alerts env tenant pusher_client alerts s).2 = [].
Proof.
  unfold batch_send_alerts, bind.
  pose proof (batch_loop_pulled alerts batch_init s) as Hloop.
  destruct (batch_loop _ _ _ _ alerts s) as [[[b|e] s1] t1]; simpl in *; [|done].
  destruct (negb _ && _).
  - pose proof (send_compressed_alerts_pulled (new_compressed_batch b)
                  (number_of_alerts_in_batch b) s1) as Hsend.
    destruct (send_compressed_alerts _ _ _ _ _ s1) as [[r s2] t2]. simpl in *.
    by rewrite pulled_app, Hloop, Hsend.
  - simpl. by rewrite (right_id_L [] (++)).
Qed.

(** The [try] block of one provider with its handler: whatever raises
    inside, the block returns, having invoked the pull of this provider and
    of no other. *)
Lemma guarded_pull_returns (sync : bool) (provider : Provider)
    (sync_alerts : list AlertDto) (s : W * unit) :
  ∃ sync_alerts' s' t,
    try_except
      (pull_provider env tenant pusher_client sync provider sync_alerts)
      (λ e, log "warning"
                ("Could not fetch alerts from provider due to " +:+ exn_str e)
                (provider_extra provider tenant) ;;
            ret sync_alerts) s
    = (Returned sync_alerts', s', t)
    ∧ pulled t = [provider].
Proof.
  unfold try_except, pull_provider, bind, invoke, log, ret. simpl.
  destruct (get_alerts env provider s.1) as [[alerts|e] w1]; simpl; [|by eexists _, _, _].
  destruct alerts as [|a alerts]; simpl; [by eexists _, _, _|].
  destruct (get_enrichments_from_db env _ _ w1) as [[enr|e] w2]; simpl;
    [|by eexists _, _, _].
  destruct sync; simpl; [by eexists _, _, _|].
  unfold bind.
  pose proof (batch_send_alerts_pulled
                (enrich_pulled_alerts enr (a :: alerts)) (w2, s.2)) as Hbatch.
  destruct (batch_send_alerts _ _ _ _ _) as [[[[]|e] s2] t2]; simpl in *;
    eexists _, _, _; (split; [done|]); simpl;
    by rewrite ?pulled_app, Hbatch.
Qed.

(** Only the instantiation of a provider can make the loop raise. *)
Lemma pull_providers_raised (sync : bool) (installed_providers : list Provider) :
  ∀ (sync_alerts : list AlertDto) (s : W * unit) (e : exn) (s' : W * unit)
    (t : list entry),
    pull_providers env tenant pusher_client sync installed_providers sync_alerts s
    = (Raised e, s', t) →
    ∃ t0 provider, t = t0 ++ [Called (GetProvider provider) (Some e)].
Proof.
  induction installed_providers as [|provider rest IH];
    intros sync_alerts s e s' t; [done|].
  simpl. unfold bind at 1. unfold invoke at 1.
  destruct (get_provider env provider s.1) as [[[]|e0] w1].
  - unfold bind at 1.
    destruct (guarded_pull_returns sync provider sync_alerts (w1, s.2))
      as (acc & s1 & t1 & -> & _).
    destruct (pull_providers _ _ _ _ rest acc s1) as [[r s2] t2] eqn:Hrest.
    intros [= -> <- <-]. apply IH in Hrest as (t0 & p & ->).
    exists (Called (GetProvider provider) None :: t1 ++ t0), p.
    simpl. by rewrite <- (assoc_L (++)).
  - intros [= <- <- <-]. by exists [], provider.
Qed.

(** When the providers can be instantiated the loop returns, and every
    installed provider was pulled, in order. *)
Lemma pull_providers_returns (sync : bool) (installed_providers : list Provider) :
  (∀ provider w, ∃ w', get_provider env provider w = (Returned tt, w')) →
  ∀ (sync_alerts : list AlertDto) (s : W * unit),
  ∃ sync_alerts' s' t,
    pull_providers env tenant pusher_client sync installed_providers sync_alerts s
    = (Returned sync_alerts', s', t)
    ∧ pulled t = installed_providers.
Proof.
  intros Hget.
  induction installed_providers as [|provider rest IH]; intros sync_alerts s.
  - by exists sync_alerts, s, [].
  - simpl. unfold bind at 1. unfold invoke at 1.
    destruct (Hget provider s.1) as [w1 ->].
    unfold bind at 1.
    destruct (guarded_pull_returns sync provider sync_alerts (w1, s.2))
      as (acc & s1 & t1 & -> & Hpulled).
    destruct (IH acc s1) as (acc' & s2 & t2 & -> & Hrest).
    exists acc', s2, (Called (GetProvider provider) None :: t1 ++ t2).
    split; [done|]. simpl. by rewrite pulled_app, Hpulled, Hrest.
Qed.

Lemma enrich_pulled_alerts_nil (pulled_alerts_enrichments : list AlertEnrichment) :
  enrich_pulled_alerts pulled_alerts_enrichments [] = [].
Proof.
  apply length_zero_iff_nil. by rewrite enrich_pulled_alerts_length.
Qed.


(** C6 (amended): without pusher client and without synchronous mode the
    orchestrator raises the configuration error before it calls anything.
    Any other exception that leaves the orchestrator was raised by one of
    the calls outside the [try] of the loop: listing the providers,
    instantiating one, or sending the closing [async-done] message; what is
    raised while pulling, enriching or publishing does not leave it. *)
Theorem configuration_error_fails_fast (sync : bool) (s : W * unit)
    (r : result (option (list AlertDto))) (s' : W * unit) (t : list entry) :
  pull_alerts_from_providers env tenant pusher_client sync s = (r, s', t) →
  (pusher_client = None → sync = false →
   r = Raised pusher_disabled ∧ s' = s ∧ t = [])
  ∧ (∀ e, r = Raised e →
          (pusher_client = None ∧ sync = false ∧ e = pusher_disabled)
          ∨ ∃ t0 c, t = t0 ++ [Called c (Some e)] ∧ is_unguarded c = true).
Proof.
  unfold pull_alerts_from_providers.
  destruct (bool_decide (pusher_client = None) && negb sync) eqn:Hguard.
  - apply andb_true_iff in Hguard as [Hnone%bool_decide_eq_true Hsync%negb_true_iff].
    intros [= <- <- <-]. split; [done|]. intros e [= <-]. by left.
  - intros Hrun. split.
    { intros -> ->. by rewrite bool_decide_eq_true_2 in Hguard. }
    intros e ->. right. revert Hrun.
    unfold bind at 1. unfold invoke at 1.
    destruct (get_all_providers env s.1) as [[all_providers|e0] w1];
      [|intros [= <- <- <-]; by exists [], GetAllProviders].
    unfold bind at 1. unfold invoke at 1. cbn [fst snd].
    destruct (get_installed_providers env tenant all_providers w1)
      as [[installed_providers|e0] w2];
      [|intros [= <- <- <-]; by eexists [_], (GetInstalledProviders tenant)].
    unfold bind at 1.
    destruct (pull_providers env tenant pusher_client sync installed_providers []
                (w2, s.2)) as [[[sync_alerts|e0] s1] t1] eqn:Hloop.
    + unfold bind at 1. destruct sync; simpl.
      * intros [=].
      * destruct pusher_client as [p|]; [|done]. unfold trigger, invoke.
        destruct (pusher_trigger env _ _ _ s1.1) as [[[]|e0] w3]; simpl;
          [intros [=]|].
        intros [= <- <- <-].
        eexists (_ :: _ :: t1), (PusherTrigger _ "async-done" _).
        split; [|done]. simpl. done.
    + apply pull_providers_raised in Hloop as (t0 & provider & ->).
      intros [= <- <- <-].
      eexists (_ :: _ :: t0), (GetProvider provider). split; [|done].
      simpl. done.
Qed.

End Poll.


(** The synchronous result of that sweep, alert by alert. *)
Example one_provider_down_result :
  (pull_alerts_from_providers (scripted one_provider_down) "T1" None true
                              (tt, tt)).1.1
  = Returned (Some [alert_a; alert_b]).
Proof. vm_compute. reflexivity. Qed.

Lemma configuration_error_fails_fast_witness :
  pull_alerts_from_providers (scripted quiet) "T1" None false (tt, tt)
  = (Raised pusher_disabled, (tt, tt), [])
  ∧ ((None : option Pusher) = None → false = false →
     @Raised (option (list AlertDto)) pusher_disabled = Raised pusher_disabled
     ∧ ((tt, tt) : unit * unit) = (tt, tt) ∧ @nil entry = [])
  ∧ (∀ e, @Raised (option (list AlertDto)) pusher_disabled = Raised e →
          ((None : option Pusher) = None ∧ false = false ∧ e = pusher_disabled)
          ∨ ∃ t0 c, [] = t0 ++ [Called c (Some e)] ∧ is_unguarded c = true).
Proof.
  assert (H1 : pull_alerts_from_providers (scripted quiet) "T1" None false (tt, tt)
               = (Raised pusher_disabled, (tt, tt), [])) by reflexivity.
  split; [exact H1|].
  exact (configuration_error_fails_fast (scripted quiet) "T1" None false (tt, tt)
           (Raised pusher_disabled) (tt, tt) [] H1).
Defined.

(** The asynchronous sweep in which the pusher raises on the closing
    message. *)
Example pusher_down_at_done_run :
  pull_alerts_from_providers (scripted pusher_down_at_done) "T1"
                             (Some PusherClient) false (tt, tt)
  = (Raised (Exception "pusher unreachable"), (tt, tt),
     [Called GetAllProviders None;
      Called (GetInstalledProviders "T1") None;
      Called (PusherTrigger "private-T1" "async-done" (VDict ∅))
             (Some (Exception "pusher unreachable"))]).
Proof. vm_compute. reflexivity. Qed.

(** C6 as stated fails: the configuration error is not the only exception
    that leaves the orchestrator; the exception of the closing [async-done]
    message does too. *)
Lemma async_done_failure_propagates :
  ¬ (∀ (env : Collaborators unit) (tenant : string)
       (pusher_client : option Pusher) (sync : bool) (s : unit * unit) (e : exn),
       (pull_alerts_from_providers env tenant pusher_client sync s).1.1 = Raised e →
       e = pusher_disabled).
Proof.
  intros H.
  specialize (H (scripted pusher_down_at_done) "T1" (Some PusherClient) false
                (tt, tt) (Exception "pusher unreachable")).
  rewrite pusher_down_at_done_run in H. specialize (H eq_refl). discriminate.
Qed.

(** * Further properties *)

(** ** The compressed batch publisher, further *)

Section BatchFurther.
Context {W : Type} (env : Collaborators W).
Context (tenant : string).

(** A loop in which no round overflows sends nothing and leaves the whole
    input as the candidate batch. *)
Lemma batch_loop_without_overflow {L} (pusher_client : option Pusher)
    (alerts : list AlertDto) :
  ∀ (b : batch) (s : W * L),
    (∀ k, (0 < k ≤ length alerts)%nat →
          len (compress env (batch_send b ++ take k alerts)) ≤ 10240) →
    ∃ b',
      batch_loop env tenant pusher_client b alerts s = (Returned b', s, [])
      ∧ batch_send b' = batch_send b ++ alerts
      ∧ number_of_alerts_in_batch b'
        = number_of_alerts_in_batch b + Z.of_nat (length alerts)
      ∧ new_compressed_batch b'
        = match alerts with
          | [] => new_compressed_batch b
          | _ :: _ => compress env (batch_send b ++ alerts)
          end.
Proof.
  induction alerts as [|alert alerts IH]; intros b s Hfits.
  - exists b. simpl. rewrite (right_id_L [] (++)), Z.add_0_r. done.
  - simpl. unfold bind, batch_step.
    assert (H1 : len (compress env (batch_send b ++ [alert])) ≤ 10240).
    { apply (Hfits 1%nat). simpl. lia. }
    destruct (Z.leb_spec (len (compress env (batch_send b ++ [alert]))) 10240)
      as [_|Hgt]; [|lia].
    simpl.
    match goal with |- context [batch_loop _ _ _ ?b0 _ _] =>
      destruct (IH b0 s) as (b' & -> & Hsend & Hn & Hnew) end.
    { intros k Hk. simpl. rewrite <- (assoc_L (++)). simpl.
      apply (Hfits (S k)). simpl. lia. }
    simpl in *. exists b'. split_and!; try done.
    + by rewrite Hsend, <- (assoc_L (++)).
    + rewrite Hn. lia.
    + rewrite Hnew. destruct alerts; [done|]. by rewrite <- (assoc_L (++)).
Qed.

(** X2: when no prefix of the input overflows and the whole input encodes
    to a non-empty payload under the ceiling, the publisher sends exactly one
    message: the whole input, with its number of alerts. *)
Theorem batch_without_overflow_is_one_message {L} (alerts : list AlertDto)
    (s : W * L) :
  (∀ k, (0 < k ≤ length alerts)%nat →
        len (compress env (take k alerts)) ≤ 10240) →
  compress env alerts ≠ "" →
  alerts ≠ [] →
  len (compress env alerts) < 10240 →
  ∃ raised w',
    batch_send_alerts env tenant (Some PusherClient) alerts s
    = (outcome raised, (w', s.2),
       [Logged "info" "Sending batch of pulled alerts via pusher"
               [("number_of_alerts", VNum (Z.of_nat (length alerts)))];
        Called (PusherTrigger ("private-" +:+ tenant) "async-alerts"
                              (VStr (compress env alerts)))
               raised]).
Proof.
  intros Hfits Hnonempty Hne Hlt.
  destruct (batch_loop_without_overflow (Some PusherClient) alerts batch_init s Hfits)
    as (b' & Hrun & _ & Hn & Hnew).
  destruct (send_compressed_alerts_run env (compress env alerts)
              (Z.of_nat (length alerts)) tenant s) as (raised & w' & Hsend).
  exists raised, w'.
  unfold batch_send_alerts, bind. rewrite Hrun.
  destruct alerts as [|a alerts']; [done|].
  simpl in Hnew. rewrite Hnew, Hn.
  change (number_of_alerts_in_batch batch_init) with 0. rewrite Z.add_0_l.
  apply String.eqb_neq in Hnonempty. rewrite Hnonempty.
  apply Z.ltb_lt in Hlt. rewrite Hlt. cbn [negb andb].
  rewrite Hsend. by destruct raised.
Qed.

(** X3: the flush after the loop compares with [<] where the loop compares
    with [<=]: an input that fits one batch of exactly 10240 characters is
    accepted by the loop and never sent. *)
Theorem batch_exactly_at_ceiling_is_never_sent {L}
    (pusher_client : option Pusher) (alerts : list AlertDto) (s : W * L) :
  (∀ k, (0 < k ≤ length alerts)%nat →
        len (compress env (take k alerts)) ≤ 10240) →
  len (compress env alerts) = 10240 →
  batch_send_alerts env tenant pusher_client alerts s = (Returned tt, s, []).
Proof.
  intros Hfits Heq.
  destruct (batch_loop_without_overflow pusher_client alerts batch_init s Hfits)
    as (b' & Hrun & _ & _ & Hnew).
  unfold batch_send_alerts, bind. rewrite Hrun.
  destruct alerts as [|a alerts'].
  - simpl in Hnew. rewrite Hnew. done.
  - simpl in Hnew. rewrite Hnew, Heq. simpl.
    by rewrite andb_false_r.
Qed.

(** A flush sends at most one message. *)
Lemma send_compressed_alerts_one_message {L} (pusher_client : option Pusher)
    (data : string) (n : Z) (s : W * L) :
  triggered (send_compressed_alerts env data n tenant pusher_client s).2
  = match pusher_client with
    | Some _ => [("private-" +:+ tenant, "async-alerts", VStr data)]
    | None => []
    end.
Proof.
  unfold send_compressed_alerts, bind, log, trigger, invoke, raise. simpl.
  destruct pusher_client; [|done].
  by destruct (pusher_trigger env _ _ _ s.1) as [[[]|e] w'].
Qed.

Lemma batch_loop_message_count {L} (pusher_client : option Pusher)
    (alerts : list AlertDto) :
  ∀ (b : batch) (s : W * L),
    (length (triggered (batch_loop env tenant pusher_client b alerts s).2)
     + match (batch_loop env tenant pusher_client b alerts s).1.1 with
       | Returned b' => pending_flush b'
       | Raised _ => 0
       end
     ≤ length alerts + pending_flush b)%nat.
Proof.
  induction alerts as [|alert alerts IH]; intros b s; [simpl; lia|].
  simpl. unfold bind, batch_step.
  destruct (len _ <=? 10240).
  - simpl.
    match goal with |- context [batch_loop _ _ _ ?b0 _ ?s0] =>
      specialize (IH b0 s0); assert (pending_flush b0 ≤ 1)%nat
        by (unfold pending_flush; destruct (String.eqb _ _); lia)
    end.
    destruct (batch_loop _ _ _ _ alerts _) as [[r s2] t2]. simpl in *. lia.
  - unfold bind.
    pose proof (send_compressed_alerts_one_message pusher_client
                  (previous_compressed_batch b) (number_of_alerts_in_batch b) s)
      as Hsend.
    destruct (send_compressed_alerts _ _ _ _ _ s) as [[[[]|e] s1] t1]; simpl in *.
    + match goal with |- context [batch_loop _ _ _ ?b0 _ ?s0] =>
        specialize (IH b0 s0) end.
      destruct (batch_loop _ _ _ _ alerts _) as [[r s2] t2]. simpl in *.
      rewrite (right_id_L [] (++)), triggered_app, length_app, Hsend.
      unfold pending_flush in IH at 2. simpl in IH.
      destruct pusher_client; simpl; lia.
    + rewrite Hsend. destruct pusher_client; simpl; lia.
Qed.

(** X4: the publisher never sends more messages than it was given alerts. *)
Theorem batch_sends_at_most_one_message_per_alert {L}
    (pusher_client : option Pusher) (alerts : list AlertDto) (s : W * L) :
  (length (triggered (batch_send_alerts env tenant pusher_client alerts s).2)
   ≤ length alerts)%nat.
Proof.
  unfold batch_send_alerts, bind.
  pose proof (batch_loop_message_count pusher_client alerts batch_init s) as Hloop.
  destruct (batch_loop _ _ _ _ alerts s) as [[[b|e] s1] t1]; simpl in *.
  - unfold pending_flush in Hloop at 1.
    destruct (String.eqb (new_compressed_batch b) ""); simpl.
    + rewrite (right_id_L [] (++)). unfold pending_flush in Hloop. simpl in Hloop. lia.
    + destruct (len _ <? 10240); simpl.
      * pose proof (send_compressed_alerts_one_message pusher_client
                      (new_compressed_batch b) (number_of_alerts_in_batch b) s1)
          as Hsend.
        destruct (send_compressed_alerts _ _ _ _ _ s1) as [[r s2] t2]. simpl in *.
        rewrite triggered_app, length_app, Hsend.
        unfold pending_flush in Hloop. simpl in Hloop.
        destruct pusher_client; simpl; lia.
      * rewrite (right_id_L [] (++)). unfold pending_flush in Hloop.
        simpl in Hloop. lia.
  - unfold pending_flush in Hloop. simpl in Hloop. lia.
Qed.

(** The loop with a pusher client: either every call returned, or the trace
    ends with the send that raised. *)
Lemma batch_loop_failure {L} (alerts : list AlertDto) :
  ∀ (b : batch) (s : W * L),
    match (batch_loop env tenant (Some PusherClient) b alerts s) with
    | (Returned _, _, t) => Forall no_failure t
    | (Raised e, _, t) =>
        ∃ t0 data,
          t = t0 ++ [Called (PusherTrigger ("private-" +:+ tenant) "async-alerts"
                                           (VStr data)) (Some e)]
          ∧ Forall no_failure t0
    end.
Proof.
  induction alerts as [|alert alerts IH]; intros b s; [by constructor|].
  simpl. unfold bind at 1. unfold batch_step.
  destruct (len _ <=? 10240).
  - simpl.
    match goal with |- context [batch_loop _ _ _ ?b0 _ ?s0] =>
      specialize (IH b0 s0) end.
    by destruct (batch_loop _ _ _ _ alerts _) as [[[b'|e] s2] t2].
  - unfold bind at 1.
    destruct (send_compressed_alerts_run env (previous_compressed_batch b)
                (number_of_alerts_in_batch b) tenant s) as ([e|] & w' & ->);
      simpl.
    + eexists [_], _. split; [done|]. by repeat constructor.
    + match goal with |- context [batch_loop _ _ _ ?b0 _ ?s0] =>
        specialize (IH b0 s0) end.
      destruct (batch_loop _ _ _ _ alerts _) as [[[b'|e] s2] t2].
      * by repeat constructor.
      * destruct IH as (t0 & data & -> & Hok).
        eexists (_ :: _ :: t0), data. split; [done|]. by repeat constructor.
Qed.

(** X5: when the publisher raises, the trace ends with the send that raised
    this exception, and no call before it failed: the first failing send ends
    the batching, and what was not yet sent is never sent. *)
Theorem batch_stops_at_first_pusher_failure {L} (alerts : list AlertDto)
    (s s' : W * L) (e : exn) (t : list entry) :
  batch_send_alerts env tenant (Some PusherClient) alerts s = (Raised e, s', t) →
  ∃ t0 data,
    t = t0 ++ [Called (PusherTrigger ("private-" +:+ tenant) "async-alerts"
                                     (VStr data)) (Some e)]
    ∧ Forall no_failure t0.
Proof.
  unfold batch_send_alerts, bind.
  pose proof (batch_loop_failure alerts batch_init s) as Hloop.
  destruct (batch_loop _ _ _ _ alerts s) as [[[b|e1] s1] t1].
  - destruct (_ && _).
    + destruct (send_compressed_alerts_run env (new_compressed_batch b)
                  (number_of_alerts_in_batch b) tenant s1) as ([e2|] & w' & ->);
        simpl; [|done].
      intros [= -> <- <-].
      eexists (t1 ++ [_]), _. split; [by rewrite <- (assoc_L (++))|].
      apply Forall_app. split; [done|]. by repeat constructor.
    + done.
  - intros [= -> <- <-]. done.
Qed.

Lemma batch_loop_segments {L} (pusher_client : option Pusher)
    (full rest : list AlertDto) :
  ∀ (b : batch) (s s' : W * L) r t,
    batch_inv env full rest b →
    batch_loop env tenant pusher_client b rest s = (r, s', t) →
    Forall (segment_message env full) (triggered t)
    ∧ match r with
      | Returned b' => batch_inv env full [] b'
      | Raised _ => True
      end.
Proof.
  induction rest as [|alert rest IH]; intros b s s' r t Hinv Hrun.
  { simpl in Hrun. injection Hrun as <- <- <-. split; [constructor|done]. }
  destruct Hinv as ((before & Hfull) & Hprev & Hnew).
  simpl in Hrun. unfold bind at 1 in Hrun. unfold batch_step in Hrun.
  destruct (len _ <=? 10240).
  - simpl in Hrun.
    destruct (batch_loop _ _ _ _ rest _) as [[r2 s2] t2] eqn:Hrest.
    injection Hrun as <- <- <-.
    eapply IH; [|exact Hrest].
    split_and!; simpl.
    + exists before. by rewrite <- (assoc_L (++)).
    + right. exists before, (batch_send b ++ [alert]), rest.
      split_and!; [by rewrite <- (assoc_L (++))| |done].
      by destruct (batch_send b).
    + right. split; [by destruct (batch_send b)|done].
  - unfold bind at 1 in Hrun.
    pose proof (send_compressed_alerts_one_message pusher_client
                  (previous_compressed_batch b) (number_of_alerts_in_batch b) s)
      as Hsend.
    assert (Hmsg : Forall (segment_message env full)
                     (match pusher_client with
                      | Some _ => [("private-" +:+ tenant, "async-alerts",
                                    VStr (previous_compressed_batch b))]
                      | None => []
                      end)).
    { destruct pusher_client; constructor; [|constructor].
      destruct Hprev as [->|Hseg]; [by left|right; eauto]. }
    rewrite <- Hsend in Hmsg. clear Hsend.
    destruct (send_compressed_alerts _ _ _ _ _ s) as [[[[]|e] s1] t1];
      simpl in *.
    + destruct (batch_loop _ _ _ _ rest _) as [[r2 s2] t2] eqn:Hrest.
      injection Hrun as <- <- <-.
      eapply IH in Hrest as [IH1 IH2].
      * split; [|done]. rewrite (right_id_L [] (++)), triggered_app.
        by apply Forall_app.
      * split_and!; simpl.
        -- exists (before ++ batch_send b). by rewrite <- (assoc_L (++)).
        -- done.
        -- by left.
    + injection Hrun as <- <- <-. done.
Qed.

(** X6: every message of the publisher carries the empty payload or the
    encoding of a run of consecutive input alerts: alerts are never
    reordered, repeated inside a payload, or mixed with anything else. *)
Theorem batch_payloads_encode_consecutive_alerts {L}
    (pusher_client : option Pusher) (alerts : list AlertDto) (s : W * L) :
  Forall (λ m, m.2 = VStr ""
               ∨ ∃ payload, m.2 = VStr payload
                            ∧ encodes_segment env alerts payload)
         (triggered (batch_send_alerts env tenant pusher_client alerts s).2).
Proof.
  change (Forall (segment_message env alerts)
            (triggered (batch_send_alerts env tenant pusher_client alerts s).2)).
  unfold batch_send_alerts, bind.
  destruct (batch_loop _ _ _ _ alerts s) as [[r s1] t1] eqn:Hrun.
  destruct (batch_loop_segments pusher_client alerts alerts batch_init s s1 r t1)
    as [Hmsgs Hinv]; [|done|].
  { split_and!; simpl; [by exists []|by left|by left]. }
  destruct r as [b|e]; simpl in *; [|done].
  destruct (negb _ && _) eqn:Hflush; simpl.
  - pose proof (send_compressed_alerts_one_message pusher_client
                  (new_compressed_batch b) (number_of_alerts_in_batch b) s1)
      as Hsend.
    destruct (send_compressed_alerts _ _ _ _ _ s1) as [[r s2] t2]. simpl in *.
    rewrite triggered_app, Hsend. apply Forall_app. split; [done|].
    destruct pusher_client; constructor; [|constructor].
    destruct Hinv as ((before & Hfull) & _ & [Hnew|[Hne Hnew]]).
    + left. simpl. by rewrite Hnew.
    + right. exists (new_compressed_batch b). split; [done|].
      exists before, (batch_send b), []. by rewrite Hfull.
  - by rewrite (right_id_L [] (++)).
Qed.

End BatchFurther.

Lemma batch_without_overflow_is_one_message_witness :
  (∀ k, (0 < k ≤ length [alert_a])%nat →
        len (compress (scripted quiet) (take k [alert_a])) ≤ 10240)
  ∧ compress (scripted quiet) [alert_a] ≠ ""
  ∧ [alert_a] ≠ []
  ∧ len (compress (scripted quiet) [alert_a]) < 10240
  ∧ ∃ raised w',
      batch_send_alerts (scripted quiet) "T1" (Some PusherClient) [alert_a] (tt, tt)
      = (outcome raised, (w', tt),
         [Logged "info" "Sending batch of pulled alerts via pusher"
                 [("number_of_alerts", VNum 1)];
          Called (PusherTrigger ("private-" +:+ "T1") "async-alerts"
                                (VStr (compress (scripted quiet) [alert_a])))
                 raised]).
Proof.
  assert (H1 : ∀ k, (0 < k ≤ length [alert_a])%nat →
                 len (compress (scripted quiet) (take k [alert_a])) ≤ 10240).
  { intros k Hk. assert (k = 1%nat) as -> by (simpl in Hk; lia).
    apply Z.leb_le. vm_compute. reflexivity. }
  assert (H2 : compress (scripted quiet) [alert_a] ≠ "")
    by (vm_compute; discriminate).
  assert (H3 : [alert_a] ≠ []) by discriminate.
  assert (H4 : len (compress (scripted quiet) [alert_a]) < 10240)
    by (apply Z.ltb_lt; vm_compute; reflexivity).
  split; [exact H1|]. split; [exact H2|]. split; [exact H3|]. split; [exact H4|].
  exact (batch_without_overflow_is_one_message (scripted quiet) "T1" [alert_a]
           (tt, tt) H1 H2 H3 H4).
Defined.

Lemma batch_exactly_at_ceiling_is_never_sent_witness :
  (∀ k, (0 < k ≤ length [alert_brimful])%nat →
        len (compress (scripted quiet) (take k [alert_brimful])) ≤ 10240)
  ∧ len (compress (scripted quiet) [alert_brimful]) = 10240
  ∧ batch_send_alerts (scripted quiet) "T1" (Some PusherClient) [alert_brimful]
                      (tt, tt)
    = (Returned tt, (tt, tt), []).
Proof.
  assert (H1 : ∀ k, (0 < k ≤ length [alert_brimful])%nat →
                 len (compress (scripted quiet) (take k [alert_brimful])) ≤ 10240).
  { intros k Hk. assert (k = 1%nat) as -> by (simpl in Hk; lia).
    apply Z.leb_le. vm_compute. reflexivity. }
  assert (H2 : len (compress (scripted quiet) [alert_brimful]) = 10240)
    by (vm_compute; reflexivity).
  split; [exact H1|]. split; [exact H2|].
  exact (batch_exactly_at_ceiling_is_never_sent (scripted quiet) "T1"
           (Some PusherClient) [alert_brimful] (tt, tt) H1 H2).
Defined.

Lemma batch_stops_at_first_pusher_failure_witness :
  batch_send_alerts (scripted pusher_down) "T1" (Some PusherClient)
                    [alert_a; alert_b; alert_c] (tt, tt)
  = (Raised (Exception "pusher is down"), (tt, tt),
     [Logged "info" "Sending batch of pulled alerts via pusher"
             [("number_of_alerts", VNum 1)];
      Called (PusherTrigger ("private-" +:+ "T1") "async-alerts"
                            (VStr (compress (scripted pusher_down) [alert_a])))
             (Some (Exception "pusher is down"))])
  ∧ ∃ t0 data,
      [Logged "info" "Sending batch of pulled alerts via pusher"
              [("number_of_alerts", VNum 1)];
       Called (PusherTrigger ("private-" +:+ "T1") "async-alerts"
                             (VStr (compress (scripted pusher_down) [alert_a])))
              (Some (Exception "pusher is down"))]
      = t0 ++ [Called (PusherTrigger ("private-" +:+ "T1") "async-alerts"
                                     (VStr data))
                      (Some (Exception "pusher is down"))]
      ∧ Forall no_failure t0.
Proof.
  assert (H1 : batch_send_alerts (scripted pusher_down) "T1" (Some PusherClient)
                 [alert_a; alert_b; alert_c] (tt, tt)
               = (Raised (Exception "pusher is down"), (tt, tt),
                  [Logged "info" "Sending batch of pulled alerts via pusher"
                          [("number_of_alerts", VNum 1)];
                   Called (PusherTrigger ("private-" +:+ "T1") "async-alerts"
                             (VStr (compress (scripted pusher_down) [alert_a])))
                          (Some (Exception "pusher is down"))]))
    by (vm_compute; reflexivity).
  split; [exact H1|].
  exact (batch_stops_at_first_pusher_failure (scripted pusher_down) "T1"
           [alert_a; alert_b; alert_c] (tt, tt) (tt, tt) _ _ H1).
Defined.

(** ** The provider poll orchestrator, further *)

Section PollFurther.
Context {W : Type} (env : Collaborators W).
Context (tenant : string).

(** In synchronous mode the pull of one provider does not look at the
    pusher client and sends nothing. *)
Lemma pull_provider_sync (pusher_client pusher_client' : option Pusher)
    (provider : Provider) (sync_alerts : list AlertDto) (s : W * unit) :
  pull_provider env tenant pusher_client true provider sync_alerts s
  = pull_provider env tenant pusher_client' true provider sync_alerts s
  ∧ triggered (pull_provider env tenant pusher_client true provider
                 sync_alerts s).2 = [].
Proof.
  unfold pull_provider, bind, invoke. simpl.
  destruct (get_alerts env provider s.1) as [[[|a alerts]|e] w1]; simpl; try done.
  by destruct (get_enrichments_from_db env _ _ w1) as [[enr|e] w2].
Qed.

Lemma pull_providers_sync (pusher_client pusher_client' : option Pusher)
    (installed_providers : list Provider) :
  ∀ (sync_alerts : list AlertDto) (s : W * unit),
    pull_providers env tenant pusher_client true installed_providers sync_alerts s
    = pull_providers env tenant pusher_client' true installed_providers
        sync_alerts s
    ∧ triggered (pull_providers env tenant pusher_client true
                   installed_providers sync_alerts s).2 = [].
Proof.
  induction installed_providers as [|provider rest IH]; intros sync_alerts s;
    [done|].
  cbn [pull_providers]. unfold bind, invoke, try_except.
  destruct (get_provider env provider s.1) as [[[]|e0] w1]; [|by simpl].
  cbn [fst snd].
  destruct (pull_provider_sync pusher_client pusher_client' provider sync_alerts
              (w1, s.2)) as [<- Hquiet].
  destruct (pull_provider env tenant pusher_client true provider sync_alerts _)
    as [[[acc|e] s1] t1]; simpl in *.
  - destruct (IH acc s1) as [<- Hrest].
    destruct (pull_providers _ _ _ _ rest acc s1) as [[r s2] t2]. simpl in *.
    split; [done|]. by rewrite triggered_app, Hquiet, Hrest.
  - destruct (IH sync_alerts s1) as [<- Hrest].
    destruct (pull_providers _ _ _ _ rest sync_alerts s1) as [[r s2] t2].
    simpl in *. split; [done|].
    by rewrite !triggered_app, Hquiet, Hrest.
Qed.

(** X7: a synchronous poll never touches the live feed: it sends no message,
    and its outcome, final state and trace are the same with any pusher
    client, a disabled one included. *)
Theorem sync_poll_never_uses_pusher (pusher_client pusher_client' : option Pusher)
    (s : W * unit) :
  pull_alerts_from_providers env tenant pusher_client true s
  = pull_alerts_from_providers env tenant pusher_client' true s
  ∧ triggered (pull_alerts_from_providers env tenant pusher_client true s).2 = [].
Proof.
  unfold pull_alerts_from_providers. rewrite !andb_false_r.
  unfold bind, invoke.
  destruct (get_all_providers env s.1) as [[all_providers|e0] w1]; [|by simpl].
  cbn [fst snd].
  destruct (get_installed_providers env tenant all_providers w1)
    as [[installed_providers|e0] w2]; [|by simpl].
  destruct (pull_providers_sync pusher_client pusher_client' installed_providers
              [] (w2, s.2)) as [<- Hquiet].
  destruct (pull_providers _ _ _ _ installed_providers [] _)
    as [[[sync_alerts|e] s1] t1]; simpl in *; [|done].
  split; [done|]. by rewrite !(right_id_L [] (++)).
Qed.

(** The messages of the batch publisher go to the tenant's channel under
    the event name [async-alerts]. *)
Lemma batch_send_alerts_messages {L} (pusher_client : option Pusher)
    (alerts : list AlertDto) (s : W * L) :
  Forall (batch_message tenant)
         (triggered (batch_send_alerts env tenant pusher_client alerts s).2).
Proof.
  assert (Hsend : ∀ data n (s : W * L),
            Forall (batch_message tenant)
              (triggered (send_compressed_alerts env data n tenant
                            pusher_client s).2)).
  { intros data n s0.
    unfold send_compressed_alerts, bind, log, trigger, invoke, raise. simpl.
    destruct pusher_client; [|by constructor].
    destruct (pusher_trigger env _ _ _ s0.1) as [[[]|e] w']; simpl;
      by repeat constructor. }
  assert (Hloop : ∀ b (s : W * L),
            Forall (batch_message tenant)
              (triggered (batch_loop env tenant pusher_client b alerts s).2)).
  { induction alerts as [|alert alerts IH]; intros b s0; [by constructor|].
    simpl. unfold bind at 1. unfold batch_step.
    destruct (len _ <=? 10240).
    - simpl. specialize (IH {| batch_send := batch_send b ++ [alert];
                  previous_compressed_batch := compress env (batch_send b ++ [alert]);
                  new_compressed_batch := compress env (batch_send b ++ [alert]);
                  number_of_alerts_in_batch := number_of_alerts_in_batch b + 1 |} s0).
      by destruct (batch_loop _ _ _ _ alerts _) as [[r s2] t2].
    - unfold bind at 1.
      specialize (Hsend (previous_compressed_batch b)
                    (number_of_alerts_in_batch b) s0).
      destruct (send_compressed_alerts _ _ _ _ _ s0) as [[[[]|e] s1] t1];
        simpl in *; [|done].
      specialize (IH {| batch_send := [alert];
                  previous_compressed_batch := previous_compressed_batch b;
                  new_compressed_batch := "";
                  number_of_alerts_in_batch := 1 |} s1).
      destruct (batch_loop _ _ _ _ alerts _) as [[r s2] t2]. simpl in *.
      rewrite (right_id_L [] (++)), triggered_app. by apply Forall_app. }
  unfold batch_send_alerts, bind.
  specialize (Hloop batch_init s).
  destruct (batch_loop _ _ _ _ alerts s) as [[[b|e] s1] t1]; simpl in *; [|done].
  destruct (negb _ && _).
  - specialize (Hsend (new_compressed_batch b) (number_of_alerts_in_batch b) s1).
    destruct (send_compressed_alerts _ _ _ _ _ s1) as [[r s2] t2]. simpl in *.
    rewrite triggered_app. by apply Forall_app.
  - simpl. by rewrite (right_id_L [] (++)).
Qed.

Lemma pull_providers_messages (pusher_client : option Pusher) (sync : bool)
    (installed_providers : list Provider) :
  ∀ (sync_alerts : list AlertDto) (s : W * unit),
    Forall (batch_message tenant)
      (triggered (pull_providers env tenant pusher_client sync
                    installed_providers sync_alerts s).2).
Proof.
  induction installed_providers as [|provider rest IH]; intros sync_alerts s;
    [by constructor|].
  simpl. unfold bind at 1. unfold invoke at 1.
  destruct (get_provider env provider s.1) as [[[]|e0] w1];
    [|by constructor].
  unfold bind at 1.
  assert (Hone : Forall (batch_message tenant)
            (triggered (try_except
               (pull_provider env tenant pusher_client sync provider sync_alerts)
               (λ e, log "warning"
                         ("Could not fetch alerts from provider due to "
                          +:+ exn_str e)
                         (provider_extra provider tenant) ;;
                     ret sync_alerts) (w1, s.2)).2)).
  { unfold try_except, pull_provider, bind, invoke, log, ret. simpl.
    destruct (get_alerts env provider w1) as [[alerts|e] w2]; simpl;
      [|by constructor].
    destruct alerts as [|a alerts]; simpl; [by constructor|].
    destruct (get_enrichments_from_db env _ _ w2) as [[enr|e] w3]; simpl;
      [|by constructor].
    destruct sync; simpl; [by constructor|].
    unfold bind.
    pose proof (batch_send_alerts_messages pusher_client
                  (enrich_pulled_alerts enr (a :: alerts)) (w3, s.2)) as Hbatch.
    destruct (batch_send_alerts _ _ _ _ _) as [[[[]|e] s2] t2]; simpl in *;
      rewrite ?triggered_app; cbn [triggered];
      by rewrite ?(right_id_L [] (++)). }
  destruct (try_except _ _ _) as [[[acc|e] s1] t1]; simpl in *; [|done].
  specialize (IH acc s1).
  destruct (pull_providers _ _ _ _ rest acc s1) as [[r s2] t2]. simpl in *.
  rewrite triggered_app. by apply Forall_app.
Qed.

(** X8: an asynchronous poll that returns has returned [None] and has ended
    with the [async-done] message, sent once, after every batch message; the
    batch messages all went to the tenant's channel as [async-alerts]. *)
Theorem async_poll_ends_with_async_done (pusher_client : option Pusher)
    (s s' : W * unit) (r : option (list AlertDto)) (t : list entry) :
  pull_alerts_from_providers env tenant pusher_client false s
  = (Returned r, s', t) →
  r = None
  ∧ ∃ t0,
      t = t0 ++ [Called (PusherTrigger ("private-" +:+ tenant) "async-done"
                                       (VDict ∅)) None]
      ∧ Forall (λ m, m.1 = ("private-" +:+ tenant, "async-alerts"))
               (triggered t0).
Proof.
  unfold pull_alerts_from_providers.
  destruct pusher_client as [[]|]; [|done]. simpl.
  unfold bind at 1. unfold invoke at 1.
  destruct (get_all_providers env s.1) as [[all_providers|e0] w1]; [|done].
  unfold bind at 1. unfold invoke at 1. cbn [fst snd].
  destruct (get_installed_providers env tenant all_providers w1)
    as [[installed_providers|e0] w2]; [|done].
  unfold bind at 1.
  pose proof (pull_providers_messages (Some PusherClient) false
                installed_providers [] (w2, s.2)) as Hmsgs.
  destruct (pull_providers _ _ _ _ installed_providers [] _)
    as [[[sync_alerts|e] s1] t1]; simpl in *; [|done].
  unfold bind, trigger, invoke.
  destruct (pusher_trigger env _ _ _ s1.1) as [[[]|e] w3]; simpl; [|done].
  intros [= <- <- <-]. split; [done|].
  exists (Called GetAllProviders None
          :: Called (GetInstalledProviders tenant) None :: t1).
  by split.
Qed.

End PollFurther.

Lemma async_poll_ends_with_async_done_witness :
  pull_alerts_from_providers (scripted one_provider_down) "T1"
    (Some PusherClient) false (tt, tt)
  = (Returned None, (tt, tt),
     (pull_alerts_from_providers (scripted one_provider_down) "T1"
        (Some PusherClient) false (tt, tt)).2)
  ∧ (None : option (list AlertDto)) = None
  ∧ ∃ t0,
      (pull_alerts_from_providers (scripted one_provider_down) "T1"
         (Some PusherClient) false (tt, tt)).2
      = t0 ++ [Called (PusherTrigger ("private-" +:+ "T1") "async-done"
                                     (VDict ∅)) None]
      ∧ Forall (λ m, m.1 = ("private-" +:+ "T1", "async-alerts"))
               (triggered t0).
Proof.
  assert (H1 : pull_alerts_from_providers (scripted one_provider_down) "T1"
                 (Some PusherClient) false (tt, tt)
               = (Returned None, (tt, tt),
                  (pull_alerts_from_providers (scripted one_provider_down) "T1"
                     (Some PusherClient) false (tt, tt)).2))
    by (vm_compute; reflexivity).
  split; [exact H1|].
  exact (async_poll_ends_with_async_done (scripted one_provider_down) "T1"
           (Some PusherClient) (tt, tt) (tt, tt) None _ H1).
Defined.
